(** * A shallow embedding of the WhatsApp relay bot (src/unnamed/part_000)

    The file embeds the three parts of the bot that carry logic:
    - [shouldForwardMessage], the filter over inbound messages;
    - [forwardMessageToAPI], the retrying HTTP forwarder, as a function
      producing the trace of its effects (log lines, fetches, sleeps) and
      its boolean result;
    - the [http.createServer] request handler, as a function producing
      the list of its effects on the response and on the WhatsApp client.

    JavaScript text is modelled as Rocq [string]s of 8-bit characters
    (each character stands for a UTF-16 code unit below 256).  JSON values
    are an inductive type; [JSON_parse] is an executable model of
    [JSON.parse] over that text.  The WhatsApp client, the clock and the
    network are inputs: functions from the call to its outcome. *)

From Stdlib Require Import Bool ZArith List String Ascii Lia.
From Stdlib Require Import Numbers.DecimalString.
Import ListNotations.
Open Scope string_scope.
Open Scope Z_scope.
Set Warnings "-register-all".

(** ** JavaScript values as produced by [JSON.parse] *)

Inductive json : Type :=
| JNull
| JBool (b : bool)
| JNum (m e : Z)              (** the number [m * 10^e], as written *)
| JStr (s : string)
| JArr (xs : list json)
| JObj (kvs : list (string * json)).

(** Property assignment on a plain object: an existing key keeps its
    position and takes the new value, a new key is appended.  This is the
    semantics of [o[k] = v], of duplicate keys in [JSON.parse] and of
    object spread [{...a, ...b}]. *)
Fixpoint obj_set {A : Type} (k : string) (v : A) (o : list (string * A))
  : list (string * A) :=
  match o with
  | [] => [(k, v)]
  | (k', v') :: o' =>
      if String.eqb k k' then (k, v) :: o' else (k', v') :: obj_set k v o'
  end.

(** [{...base, ...extra}]: the properties of [extra] assigned in order. *)
Definition obj_spread {A : Type} (base extra : list (string * A))
  : list (string * A) :=
  fold_left (fun o kv => obj_set (fst kv) (snd kv) o) extra base.

Fixpoint obj_get {A : Type} (o : list (string * A)) (k : string) : option A :=
  match o with
  | [] => None
  | (k', v) :: o' => if String.eqb k k' then Some v else obj_get o' k
  end.

(** Property read [data.k] on a parsed JSON value that is not [null]:
    only objects have the properties the handler reads ([None] is
    [undefined]). *)
Definition js_get (v : json) (k : string) : option json :=
  match v with
  | JObj o => obj_get o k
  | _ => None
  end.

(** A JSON number literal rounds to [0] in binary64 iff its magnitude is at
    most [2^-1075]. *)
Definition num_truthy (m e : Z) : bool :=
  negb (m =? 0) &&
  (if 0 <=? e then true else Z.abs m * 2 ^ 1075 >? 10 ^ (- e)).

(** JavaScript truthiness ([None] is [undefined]). *)
Definition truthy (v : option json) : bool :=
  match v with
  | None | Some JNull => false
  | Some (JBool b) => b
  | Some (JNum m e) => num_truthy m e
  | Some (JStr s) => negb (String.eqb s "")
  | Some (JArr _) | Some (JObj _) => true
  end.

(** ** JavaScript string primitives *)

(** [String.prototype.toLowerCase] on code units below 256: A-Z and the
    Latin-1 capitals (U+00C0..U+00DE except U+00D7) move down by 32. *)
Definition lower_char (c : ascii) : ascii :=
  let n := nat_of_ascii c in
  if ((65 <=? n) && (n <=? 90))%nat
     || ((192 <=? n) && (n <=? 222) && negb (n =? 215))%nat
  then ascii_of_nat (n + 32) else c.

Fixpoint toLowerCase (s : string) : string :=
  match s with
  | EmptyString => EmptyString
  | String c r => String (lower_char c) (toLowerCase r)
  end.

(** [s.includes(t)]: [t] occurs in [s] at some index. *)
Fixpoint includes (s t : string) : bool :=
  String.prefix t s ||
  match s with
  | EmptyString => false
  | String _ r => includes r t
  end.

(** [Array.prototype.includes] on an array of strings ([===]). *)
Definition array_includes (xs : list string) (x : string) : bool :=
  existsb (String.eqb x) xs.

(** ** Configuration ([api-config.js]) *)

Record filters := mkFilters {
  skipOwnMessages : bool;
  skipGroupMessages : bool;
  allowedSenders : list string;
  requiredKeywords : list string
}.

Record api_config := mkConfig {
  enabled : bool;
  endpoint : string;
  headers : list (string * string);
  apiKey : string;
  timeout : Z;
  retryAttempts : Z;
  retryDelay : Z;
  cfg_filters : filters;
  logSuccess : bool;
  logErrors : bool;
  debug : bool
}.

(** The [additionalData] object built in the ['message'] handler, with
    the fields [shouldForwardMessage] reads. *)
Record additional_data := mkAdditional {
  ad_messageId : string;
  ad_chatType : string;
  ad_chatName : string;
  ad_messageType : string;
  ad_hasMedia : bool;
  ad_timestamp : Z;
  ad_isFromMe : bool
}.

(** ** Filter: [shouldForwardMessage] (part_000, lines 31-65) *)

Definition shouldForwardMessage (apiConfig : api_config)
    (sender message : string) (additionalData : additional_data) : bool :=
  let f := cfg_filters apiConfig in
  if negb (enabled apiConfig) then false
  else if skipOwnMessages f && ad_isFromMe additionalData then false
  else if skipGroupMessages f && String.eqb (ad_chatType additionalData) "group"
  then false
  else if negb (Nat.eqb (List.length (allowedSenders f)) 0)
          && negb (array_includes (allowedSenders f) sender) then false
  else if negb (Nat.eqb (List.length (requiredKeywords f)) 0) then
    let hasKeyword :=
      existsb (fun keyword =>
                 includes (toLowerCase message) (toLowerCase keyword))
              (requiredKeywords f) in
    if negb hasKeyword then false else true
  else true.

(** ** The ['message'] handler's [additionalData] (part_000, lines 307-321) *)

Record wa_message := mkMessage {
  msg_from : string;
  msg_body : string;
  msg_id_serialized : string;
  msg_type : string;
  msg_hasMedia : bool;
  msg_timestamp : Z;           (** epoch seconds, as the client gives it *)
  msg_fromMe : bool
}.

Record wa_chat := mkChat {
  chat_isGroup : bool;
  chat_name : string
}.

Definition additionalData_of (msg : wa_message) (chat : wa_chat) : additional_data :=
  mkAdditional (msg_id_serialized msg)
               (if chat_isGroup chat then "group" else "private")
               (if String.eqb (chat_name chat) "" then "Unknown" else chat_name chat)
               (msg_type msg) (msg_hasMedia msg) (msg_timestamp msg) (msg_fromMe msg).

(** The same object as a JavaScript object, in the key order of its
    literal. *)
Definition additional_json (ad : additional_data) : list (string * json) :=
  [("messageId", JStr (ad_messageId ad));
   ("chatType", JStr (ad_chatType ad));
   ("chatName", JStr (ad_chatName ad));
   ("messageType", JStr (ad_messageType ad));
   ("hasMedia", JBool (ad_hasMedia ad));
   ("timestamp", JNum (ad_timestamp ad) 0);
   ("isFromMe", JBool (ad_isFromMe ad))].

(** ** Forwarder: [forwardMessageToAPI] (part_000, lines 68-155) *)

(** What [fetch] gives back for one attempt: a response whose body
    [response.text()] reads or fails to read, or a rejection (timeout,
    connection refused, DNS failure). *)
Inductive body_read := BodyText (t : string) | BodyError (message : string).

Inductive outcome :=
| Response (status : Z) (text : body_read)
| FetchError (message : string).

(** [response.ok] *)
Definition response_ok (status : Z) : bool := (200 <=? status) && (status <=? 299).

(** The effects of the forwarder, in order. *)
Inductive effect :=
| Log (line : string)                     (** [console.log] *)
| LogValue (label : string) (v : json)    (** [console.log(label, JSON.stringify(v))] *)
| LogError (line : string)                (** [console.error] *)
| Fetch (url : string) (hdrs : list (string * string)) (body : json) (timeout_ms : Z)
| Sleep (ms : Z).                         (** [await new Promise(r => setTimeout(r, ms))] *)

Definition Z_to_string (x : Z) : string := NilEmpty.string_of_int (Z.to_int x).

Section Forward.

Variable apiConfig : api_config.
Variables sender message : string.
Variable additionalData : list (string * json).
(** [new Date().toISOString()] during the given attempt. *)
Variable now_iso : Z -> string.
(** The outcome of the [fetch] of the given attempt. *)
Variable fetch : Z -> outcome.

Let retry := retryAttempts apiConfig.
Let retry_delay := retryDelay apiConfig.

Definition payload (attempt : Z) : json :=
  JObj (obj_spread [("sender", JStr sender); ("message", JStr message);
                    ("timestamp", JStr (now_iso attempt))] additionalData).

Definition request_headers : list (string * string) :=
  obj_spread (headers apiConfig) [("Authorization", "Bearer " ++ apiKey apiConfig)].

Definition attempt_str (attempt : Z) : string :=
  Z_to_string attempt ++ "/" ++ Z_to_string retry.

Definition debug_request_logs (attempt : Z) : list effect :=
  if debug apiConfig then
    [Log "DEBUG: Forwarding message to API";
     LogValue "Payload:" (payload attempt);
     Log ("Endpoint: " ++ endpoint apiConfig);
     Log ("API Key: " ++ (if String.eqb (apiKey apiConfig) "" then "None"
                          else "***" ++ substring (String.length (apiKey apiConfig) - 4) 4
                                                  (apiKey apiConfig)));
     Log ("Timeout: " ++ Z_to_string (timeout apiConfig) ++ "ms");
     Log ("Attempt: " ++ attempt_str attempt)]
  else [].

Definition success_logs (status : Z) : list effect :=
  if debug apiConfig then
    [Log "DEBUG: API request successful"; Log ("Status: " ++ Z_to_string status);
     Log "Headers:"]
  else if logSuccess apiConfig then
    [Log ("Message forwarded to API successfully. Status: " ++ Z_to_string status)]
  else [].

Definition http_error_logs (status : Z) (responseText : string) : list effect :=
  if debug apiConfig then
    [Log "DEBUG: API request failed"; Log ("Status: " ++ Z_to_string status);
     Log "Response Headers:"; Log ("Response Body: " ++ responseText)]
  else if logErrors apiConfig then
    [LogError ("API request failed. Status: " ++ Z_to_string status
               ++ ", Response: " ++ responseText)]
  else [].

Definition catch_logs (attempt : Z) (error_message : string) : list effect :=
  if debug apiConfig then
    [Log "DEBUG: Network/connection error"; Log ("Error Message: " ++ error_message)]
  else if logErrors apiConfig then
    [LogError ("Error forwarding message to API (attempt " ++ attempt_str attempt
               ++ "): " ++ error_message)]
  else [].

Definition wait_before_retry : list effect :=
  ((if debug apiConfig then
     [Log ("DEBUG: Waiting " ++ Z_to_string retry_delay ++ "ms before retry...")]
   else []) ++ [Sleep retry_delay])%list.

(** The [for] loop from [attempt] on; [fuel] bounds the iterations left
    ([retryAttempts - attempt + 1] of them from [attempt = 1]). *)
Fixpoint attempts (fuel : nat) (attempt : Z) : list effect * bool :=
  match fuel with
  | O => ([], false)
  | S fuel' =>
    if attempt <=? retry then
      let sent := (debug_request_logs attempt
                   ++ [Fetch (endpoint apiConfig) request_headers (payload attempt)
                             (timeout apiConfig)])%list in
      (* a failed attempt: last one returns false, others wait and loop *)
      let failed (tr : list effect) :=
        if attempt =? retry then (tr, false)
        else let (rest, r) := attempts fuel' (attempt + 1) in
             ((tr ++ wait_before_retry ++ rest)%list, r) in
      match fetch attempt with
      | Response status text =>
          if response_ok status then ((sent ++ success_logs status)%list, true)
          else match text with
               | BodyText t => failed (sent ++ http_error_logs status t)%list
               | BodyError m => failed (sent ++ catch_logs attempt m)%list
               end
      | FetchError m => failed (sent ++ catch_logs attempt m)%list
      end
    else ([], false)
  end.

Definition forwardMessageToAPI : list effect * bool :=
  attempts (Z.to_nat retry) 1.

End Forward.

(** The ['message'] handler (part_000, lines 276-332) without its debug
    logging: filter, then forward. *)
Definition on_message (apiConfig : api_config) (msg : wa_message) (chat : wa_chat)
    (now_iso : Z -> string) (fetch : Z -> outcome) : list effect * bool :=
  let sender := msg_from msg in
  let message := msg_body msg in
  let additionalData := additionalData_of msg chat in
  if shouldForwardMessage apiConfig sender message additionalData then
    forwardMessageToAPI apiConfig sender message (additional_json additionalData)
                        now_iso fetch
  else ([], false).

(** The JSON bodies of the fetches of a trace. *)
Fixpoint fetched_payloads (tr : list effect) : list json :=
  match tr with
  | [] => []
  | Fetch _ _ p _ :: tr' => p :: fetched_payloads tr'
  | _ :: tr' => fetched_payloads tr'
  end.

(** The observable skeleton of a trace: its fetches and sleeps. *)
Inductive step := SFetch | SSleep (ms : Z).

Fixpoint skeleton (tr : list effect) : list step :=
  match tr with
  | [] => []
  | Fetch _ _ _ _ :: tr' => SFetch :: skeleton tr'
  | Sleep ms :: tr' => SSleep ms :: skeleton tr'
  | _ :: tr' => skeleton tr'
  end.

(** [n] fetches with a sleep of [d] between consecutive ones. *)
Fixpoint attempts_pattern (n : nat) (d : Z) : list step :=
  match n with
  | O => []
  | S O => [SFetch]
  | S n' => SFetch :: SSleep d :: attempts_pattern n' d
  end.

Definition failing (o : outcome) : bool :=
  match o with
  | Response status _ => negb (response_ok status)
  | FetchError _ => true
  end.

(** ** [JSON.parse] *)

Module JsonParse.

Definition is_ws (c : ascii) : bool :=
  Ascii.eqb c " " || Ascii.eqb c "009" || Ascii.eqb c "010" || Ascii.eqb c "013".

Fixpoint skip_ws (s : string) : string :=
  match s with
  | String c r => if is_ws c then skip_ws r else s
  | EmptyString => EmptyString
  end.

Definition is_digit (c : ascii) : bool :=
  ((48 <=? nat_of_ascii c) && (nat_of_ascii c <=? 57))%nat.

Definition hex_val (c : ascii) : option nat :=
  let n := nat_of_ascii c in
  if ((48 <=? n) && (n <=? 57))%nat then Some (n - 48)%nat
  else if ((97 <=? n) && (n <=? 102))%nat then Some (n - 87)%nat
  else if ((65 <=? n) && (n <=? 70))%nat then Some (n - 55)%nat
  else None.

Definition cons_char (c : ascii) (r : option (string * string)) : option (string * string) :=
  match r with
  | Some (t, rest) => Some (String c t, rest)
  | None => None
  end.

Section Text.

(** A [\u] escape above U+00FF denotes a character that an 8-bit string
    cannot hold.  With [wide = false] such an escape stops the parse; with
    [wide = true] it stands for the character [?], so that the parse
    checks the syntax of the text alone. *)
Variable wide : bool.

(** The characters of a string literal after its opening quote, up to and
    including the closing quote; escapes decoded. *)
Fixpoint p_chars (s : string) : option (string * string) :=
  match s with
  | EmptyString => None
  | String c r =>
    if Ascii.eqb c "034" then Some (EmptyString, r)
    else if Ascii.eqb c "092" then
      match r with
      | EmptyString => None
      | String e r' =>
        if Ascii.eqb e "034" then cons_char "034" (p_chars r')
        else if Ascii.eqb e "092" then cons_char "092" (p_chars r')
        else if Ascii.eqb e "/" then cons_char "/" (p_chars r')
        else if Ascii.eqb e "b" then cons_char "008" (p_chars r')
        else if Ascii.eqb e "f" then cons_char "012" (p_chars r')
        else if Ascii.eqb e "n" then cons_char "010" (p_chars r')
        else if Ascii.eqb e "r" then cons_char "013" (p_chars r')
        else if Ascii.eqb e "t" then cons_char "009" (p_chars r')
        else if Ascii.eqb e "u" then
          match r' with
          | String h1 (String h2 (String h3 (String h4 r''))) =>
            match hex_val h1, hex_val h2, hex_val h3, hex_val h4 with
            | Some d1, Some d2, Some d3, Some d4 =>
              let code := (((d1 * 16 + d2) * 16 + d3) * 16 + d4)%nat in
              if (code <? 256)%nat then cons_char (ascii_of_nat code) (p_chars r'')
              else if wide then cons_char "?" (p_chars r'')
              else None
            | _, _, _, _ => None
            end
          | _ => None
          end
        else None
      end
    else if (nat_of_ascii c <? 32)%nat then None
    else cons_char c (p_chars r)
  end.

Fixpoint p_digits (s : string) : list Z * string :=
  match s with
  | String c r =>
    if is_digit c then
      let (ds, rest) := p_digits r in (Z.of_nat (nat_of_ascii c - 48) :: ds, rest)
    else ([], s)
  | EmptyString => ([], s)
  end.

Definition digits_val (ds : list Z) : Z := fold_left (fun acc d => acc * 10 + d) ds 0.

(** [-? (0 | [1-9][0-9]* ) (. [0-9]+)? ([eE] [+-]? [0-9]+)?] *)
Definition p_number (s : string) : option (json * string) :=
  let '(neg, s1) := match s with
                    | String c r => if Ascii.eqb c "-" then (true, r) else (false, s)
                    | EmptyString => (false, s)
                    end in
  let '(ids, s2) := p_digits s1 in
  match ids with
  | [] => None
  | 0 :: _ :: _ => None
  | _ =>
    let frac := match s2 with
                | String c r =>
                  if Ascii.eqb c "." then
                    match p_digits r with
                    | ([], _) => None
                    | (fs, s3) => Some (fs, s3)
                    end
                  else Some ([], s2)
                | EmptyString => Some ([], s2)
                end in
    match frac with
    | None => None
    | Some (fs, s3) =>
      let exp := match s3 with
                 | String c r =>
                   if Ascii.eqb c "e" || Ascii.eqb c "E" then
                     let '(sg, r1) := match r with
                                      | String c' r' =>
                                        if Ascii.eqb c' "-" then (-1, r')
                                        else if Ascii.eqb c' "+" then (1, r')
                                        else (1, r)
                                      | EmptyString => (1, r)
                                      end in
                     match p_digits r1 with
                     | ([], _) => None
                     | (es, s4) => Some (sg * digits_val es, s4)
                     end
                   else Some (0, s3)
                 | EmptyString => Some (0, s3)
                 end in
      match exp with
      | None => None
      | Some (ex, s4) =>
        let m := digits_val (ids ++ fs) in
        Some (JNum (if neg then - m else m) (ex - Z.of_nat (List.length fs)), s4)
      end
    end
  end.

Definition p_literal (s : string) : option (json * string) :=
  if String.prefix "true" s then Some (JBool true, substring 4 (String.length s - 4) s)
  else if String.prefix "false" s then Some (JBool false, substring 5 (String.length s - 5) s)
  else if String.prefix "null" s then Some (JNull, substring 4 (String.length s - 4) s)
  else None.

Fixpoint p_value (n : nat) (s : string) {struct n} : option (json * string) :=
  match n with
  | O => None
  | S n' =>
    match skip_ws s with
    | EmptyString => None
    | String c r as s' =>
      if Ascii.eqb c "{" then
        match skip_ws r with
        | String c' r' =>
          if Ascii.eqb c' "}" then Some (JObj [], r') else p_members n' (skip_ws r) []
        | EmptyString => None
        end
      else if Ascii.eqb c "[" then
        match skip_ws r with
        | String c' r' =>
          if Ascii.eqb c' "]" then Some (JArr [], r') else p_elements n' r []
        | EmptyString => None
        end
      else if Ascii.eqb c "034" then
        match p_chars r with
        | Some (t, rest) => Some (JStr t, rest)
        | None => None
        end
      else if Ascii.eqb c "-" || is_digit c then p_number s'
      else p_literal s'
    end
  end
with p_members (n : nat) (s : string) (acc : list (string * json)) {struct n}
  : option (json * string) :=
  match n with
  | O => None
  | S n' =>
    match s with
    | String q r =>
      if Ascii.eqb q "034" then
        match p_chars r with
        | None => None
        | Some (k, r1) =>
          match skip_ws r1 with
          | String col r2 =>
            if Ascii.eqb col ":" then
              match p_value n' r2 with
              | None => None
              | Some (v, r3) =>
                let acc' := obj_set k v acc in
                match skip_ws r3 with
                | String c r4 =>
                  if Ascii.eqb c "," then p_members n' (skip_ws r4) acc'
                  else if Ascii.eqb c "}" then Some (JObj acc', r4)
                  else None
                | EmptyString => None
                end
              end
            else None
          | EmptyString => None
          end
        end
      else None
    | EmptyString => None
    end
  end
with p_elements (n : nat) (s : string) (acc : list json) {struct n}
  : option (json * string) :=
  match n with
  | O => None
  | S n' =>
    match p_value n' s with
    | None => None
    | Some (v, r) =>
      match skip_ws r with
      | String c r' =>
        if Ascii.eqb c "," then p_elements n' r' (acc ++ [v])
        else if Ascii.eqb c "]" then Some (JArr (acc ++ [v]), r')
        else None
      | EmptyString => None
      end
    end
  end.

End Text.

Definition parse_text (wide : bool) (s : string) : option json :=
  match p_value wide (2 * String.length s + 2) s with
  | Some (v, rest) => if String.eqb (skip_ws rest) "" then Some v else None
  | None => None
  end.

(** [JSON.parse(s)] when it returns a value the model holds: [None] when
    it throws a [SyntaxError], and also when a [\u] escape of the text
    denotes a character above U+00FF. *)
Definition JSON_parse (s : string) : option json := parse_text false s.

(** [JSON.parse(s)] does not throw: [s] is a JSON text. *)
Definition JSON_valid (s : string) : bool :=
  match parse_text true s with
  | Some _ => true
  | None => false
  end.

End JsonParse.
Import JsonParse (JSON_parse, JSON_valid).

(** JSON text written with ['] for the double quote, for the examples. *)
Fixpoint squote (s : string) : string :=
  match s with
  | EmptyString => EmptyString
  | String c r => String (if Ascii.eqb c "'" then "034" else c) (squote r)
  end.


(** ** The HTTP request handler (part_000, lines 515-606) *)

Record request := mkRequest {
  req_method : string;
  req_url : string;
  req_authorization : option string;   (** [req.headers.authorization] *)
  req_body : string                    (** the concatenated ['data'] chunks *)
}.

(** What [client.sendMessage] is given: the message as it was in the
    body, or [new Location(latitude, longitude, name, address)]. *)
Inductive content :=
| CText (message : option json)
| CLocation (latitude longitude name address : option json).

(** What [client.sendMessage] resolves to ([result.id._serialized] and
    [result.timestamp]) or the message of the error it rejects with. *)
Inductive send_result :=
| Sent (id_serialized : string) (timestamp : Z)
| SendFailed (message : string).

Inductive reply_effect :=
| SetHeader (name value : string)                       (** [res.setHeader] *)
| WriteHead (status : Z) (hdrs : list (string * string)) (** [res.writeHead] *)
| EndBody (body : option json)          (** [res.end()] / [res.end(JSON.stringify(b))] *)
| ReadBody                              (** wait for the request body to end *)
| SendMessage (to : json) (c : content) (** [client.sendMessage(to, c)] *)
| ConsoleError (line : string)          (** [console.error] *)
| OutOfModel (what : string).           (** a path this model does not follow *)

(** ** [url.parse(u, true).pathname] (Node's legacy parser, lib/url.js)

    [pathname u] is [Some p] where the model follows [url.parse]: [p] is
    the [pathname], [None] for [null].  It is [None] for the targets the
    model leaves out: those with a character outside [!]..[~] (which
    [url.parse] trims or treats as white space), those naming a host with
    user information, and absolute targets other than [http://host...] and
    [https://host...] with a plain host name. *)

(** The part before the first [?] or [#]. *)
Fixpoint path_part (u : string) : string :=
  match u with
  | EmptyString => EmptyString
  | String c r =>
    if Ascii.eqb c "?" || Ascii.eqb c "#" then EmptyString else String c (path_part r)
  end.

Definition printable (u : string) : bool :=
  forallb (fun c => ((33 <=? nat_of_ascii c) && (nat_of_ascii c <=? 126))%nat)
          (list_ascii_of_string u).

(** Backslashes before the first [?] or [#] become slashes. *)
Fixpoint fix_backslashes (u : string) : string :=
  match u with
  | EmptyString => EmptyString
  | String c r =>
    if Ascii.eqb c "?" || Ascii.eqb c "#" then u
    else String (if Ascii.eqb c "092" then "/" else c) (fix_backslashes r)
  end.

(** [hasAt]: an [@] before the first [?] or [#]. *)
Fixpoint has_at (u : string) : bool :=
  match u with
  | EmptyString => false
  | String c r =>
    if Ascii.eqb c "?" || Ascii.eqb c "#" then false else Ascii.eqb c "@" || has_at r
  end.

Definition has_hash (u : string) : bool := existsb (Ascii.eqb "#") (list_ascii_of_string u).

(** [simplePathPattern] matches a text without white space iff it starts
    with [/] or [//] not followed by another [/]; its path group is then
    the part before the first [?]. *)
Definition simple_path (rest : string) : bool :=
  String.prefix "/" rest && negb (String.prefix "///" rest).

(** [protocolPattern = /^[a-z0-9.+-]+:/i]: the protocol without its colon
    and the rest. *)
Definition scheme_char (c : ascii) : bool :=
  let n := nat_of_ascii c in
  ((97 <=? n) && (n <=? 122) || (65 <=? n) && (n <=? 90) || (48 <=? n) && (n <=? 57))%nat
  || Ascii.eqb c "." || Ascii.eqb c "+" || Ascii.eqb c "-".

Fixpoint scheme_run (u : string) : option (string * string) :=
  match u with
  | EmptyString => None
  | String c r =>
    if Ascii.eqb c ":" then Some (EmptyString, r)
    else if scheme_char c then
      match scheme_run r with
      | Some (p, r') => Some (String c p, r')
      | None => None
      end
    else None
  end.

Definition protocol (u : string) : option (string * string) :=
  match scheme_run u with
  | Some (EmptyString, _) => None
  | x => x
  end.

(** [hostPattern = /^\/\/[^@\/]+@[^@\/]+/]. *)
Fixpoint user_host (seen_user : bool) (u : string) : bool :=
  match u with
  | EmptyString => false
  | String c r =>
    if Ascii.eqb c "/" then false
    else if Ascii.eqb c "@" then
      seen_user && match r with
                   | String c' _ => negb (Ascii.eqb c' "/" || Ascii.eqb c' "@")
                   | EmptyString => false
                   end
    else user_host true r
  end.

Definition host_pattern (u : string) : bool :=
  match u with
  | String "/" (String "/" r) => user_host false r
  | _ => false
  end.

(** [autoEscapeStr]: the characters of [autoEscapeChars] that are printable
    are written as [%XX]. *)
Definition escape_char (c : ascii) : string :=
  if Ascii.eqb c "034" then "%22" else if Ascii.eqb c "'" then "%27"
  else if Ascii.eqb c "<" then "%3C" else if Ascii.eqb c ">" then "%3E"
  else if Ascii.eqb c "092" then "%5C" else if Ascii.eqb c "^" then "%5E"
  else if Ascii.eqb c "`" then "%60" else if Ascii.eqb c "{" then "%7B"
  else if Ascii.eqb c "|" then "%7C" else if Ascii.eqb c "}" then "%7D"
  else String c EmptyString.

Fixpoint auto_escape (u : string) : string :=
  match u with
  | EmptyString => EmptyString
  | String c r => escape_char c ++ auto_escape r
  end.

(** The [pathname] taken from the rest after the host: [null] when the
    part before [?] or [#] is empty. *)
Definition rest_pathname (rest : string) : option string :=
  let p := path_part (auto_escape rest) in
  if String.eqb p "" then None else Some p.

(** The host of an [http:] or [https:] target, up to the first [/], [?]
    or [#], and what follows it. *)
Fixpoint host_split (u : string) : string * string :=
  match u with
  | EmptyString => (EmptyString, EmptyString)
  | String c r =>
    if Ascii.eqb c "/" || Ascii.eqb c "?" || Ascii.eqb c "#" then (EmptyString, u)
    else let (h, rest) := host_split r in (String c h, rest)
  end.

Fixpoint split_at (sep : ascii) (u : string) : list string :=
  match u with
  | EmptyString => [EmptyString]
  | String c r =>
    match split_at sep r with
    | [] => []
    | l :: ls => if Ascii.eqb c sep then EmptyString :: l :: ls else String c l :: ls
    end
  end.

Definition label_char (c : ascii) : bool :=
  let n := nat_of_ascii c in
  ((97 <=? n) && (n <=? 122) || (65 <=? n) && (n <=? 90) || (48 <=? n) && (n <=? 57))%nat
  || Ascii.eqb c "-".

(** A host name of non-empty labels of letters, digits and [-], none of
    them an IDNA [xn--] label, at most 255 characters long: [getHostname]
    keeps it whole and [toASCII] returns it lower-cased. *)
Definition plain_hostname (h : string) : bool :=
  negb (String.eqb h "") && (String.length h <=? 255)%nat
  && forallb (fun l => negb (String.eqb l "") && forallb label_char (list_ascii_of_string l)
                       && negb (String.prefix "xn--" (toLowerCase l)))
             (split_at "." h).

(** [host] is a plain host name with an optional [:port] of digits. *)
Definition plain_host (host : string) : bool :=
  match split_at ":" host with
  | [h] => plain_hostname h
  | [h; port] => plain_hostname h && forallb JsonParse.is_digit (list_ascii_of_string port)
  | _ => false
  end.

Definition pathname (u : string) : option (option string) :=
  if negb (printable u) then None
  else
    let rest := fix_backslashes u in
    if negb (has_hash u) && negb (has_at u) && simple_path rest then
      Some (Some (path_part rest))
    else
      match protocol rest with
      | None => if host_pattern rest then None else Some (rest_pathname rest)
      | Some (proto, after) =>
        let lowerProto := toLowerCase proto in
        if String.eqb lowerProto "http" || String.eqb lowerProto "https" then
          match after with
          | String "/" (String "/" r) =>
            let (host, rest') := host_split r in
            if plain_host host then
              match rest_pathname rest' with
              | None => Some (Some "/")
              | p => Some p
              end
            else None
          | _ => None
          end
        else None
      end.

(** [path === p] *)
Definition path_is (path : option string) (p : string) : bool :=
  match path with
  | Some q => String.eqb q p
  | None => false
  end.

(** A character [url.parse] keeps as it is in a path: printable, and none
    of [?], [#], [@], [\] and the characters [autoEscapeStr] escapes. *)
Definition plain_path_char (c : ascii) : bool :=
  ((33 <=? nat_of_ascii c) && (nat_of_ascii c <=? 126))%nat
  && negb (existsb (Ascii.eqb c)
             ["?"; "#"; "@"; "092"; "034"; "'"; "<"; ">"; "^"; "`"; "{"; "|"; "}"]%char).

(** A request path of such characters that starts with one [/]. *)
Definition plain_path (u : string) : bool :=
  String.prefix "/" u && negb (String.prefix "//" u)
  && forallb plain_path_char (list_ascii_of_string u).

Definition cors_headers : list reply_effect :=
  [SetHeader "Access-Control-Allow-Origin" "*";
   SetHeader "Access-Control-Allow-Methods" "GET, POST, OPTIONS";
   SetHeader "Access-Control-Allow-Headers" "Content-Type, Authorization"].

Definition json_reply (status : Z) (body : list (string * json)) : list reply_effect :=
  [WriteHead status [("Content-Type", "application/json")]; EndBody (Some (JObj body))].

(** The [catch] of the ['end'] callback. *)
Definition fail_500 (error_message : string) : list reply_effect :=
  ConsoleError ("Error sending message: " ++ error_message)
  :: json_reply 500 [("error", JStr "Failed to send message");
                     ("details", JStr error_message)].

(** [phoneNumber] formatting of a string [to]. *)
Definition format_phone (to : string) : string :=
  if negb (includes to "@c.us") && negb (includes to "@g.us") then to ++ "@c.us" else to.

(** [String(v)] of the number [m * 10^e] when it is an integer of
    magnitude at most [2^53]: its decimal digits. *)
Definition number_string (m e : Z) : option string :=
  let v := if 0 <=? e then Some (m * 10 ^ e)
           else if m mod 10 ^ (- e) =? 0 then Some (m / 10 ^ (- e)) else None in
  match v with
  | Some n => if Z.abs n <=? 2 ^ 53 then Some (Z_to_string n) else None
  | None => None
  end.

(** [Array.prototype.toString] ([join(",")]) of an array from [JSON.parse]:
    [null] gives the empty string, an array its own [join], a plain
    object ["[object Object]"].  [None] where the model stops: a number
    [number_string] does not print, an object with its own [toString]
    key (whose conversion throws). *)
Definition array_string (xs : list json) : option string :=
  let elem := fix elem (v : json) : option string :=
    match v with
    | JNull => Some EmptyString
    | JBool b => Some (if b then "true" else "false")
    | JNum m e => number_string m e
    | JStr s => Some s
    | JArr ys =>
      (fix join (ys : list json) : option string :=
         match ys with
         | [] => Some EmptyString
         | [y] => elem y
         | y :: ys' =>
           match elem y, join ys' with
           | Some a, Some b => Some (a ++ "," ++ b)
           | _, _ => None
           end
         end) ys
    | JObj o => match obj_get o "toString" with
                | None => Some "[object Object]"
                | Some _ => None
                end
    end in
  elem (JArr xs).

(** [v === t] for a string [t]. *)
Definition json_is_string (t : string) (v : json) : bool :=
  match v with
  | JStr s => String.eqb s t
  | _ => false
  end.

(** [phoneNumber] after lines 557-560, for the [to] of the body: [inl] the
    value given to [client.sendMessage], [inr] the message of the
    [TypeError] thrown when [to] has no [includes] method (V8's wording).
    On an array [includes] is [Array.prototype.includes] and the template
    literal calls [Array.prototype.toString]; [None] where [array_string]
    stops. *)
Definition phone_number (to : option json) : option (json + string) :=
  match to with
  | Some (JStr s) => Some (inl (JStr (format_phone s)))
  | Some (JArr xs) =>
    if negb (existsb (json_is_string "@c.us") xs) && negb (existsb (json_is_string "@g.us") xs)
    then match array_string xs with
         | Some s => Some (inl (JStr (s ++ "@c.us")))
         | None => None
         end
    else Some (inl (JArr xs))
  | None => Some (inr "Cannot read properties of undefined (reading 'includes')")
  | Some JNull => Some (inr "Cannot read properties of null (reading 'includes')")
  | Some _ => Some (inr "phoneNumber.includes is not a function")
  end.

Section Handler.

(** [HTTP_AUTH_TOKEN] *)
Variable HTTP_AUTH_TOKEN : string.
(** [client.info] is set (the client finished its ready handshake). *)
Variable client_info : bool.
(** [new Date().toISOString()] when [/status] answers. *)
Variable now_iso : string.
(** The WhatsApp client's [sendMessage]. *)
Variable sendMessage : json -> content -> send_result.
(** The [message] of the [SyntaxError] that [JSON.parse] throws on a text
    it rejects; its wording is the engine's. *)
Variable json_error_message : string -> string.

Definition send_and_reply (phoneNumber : json) (c : content) : list reply_effect :=
  SendMessage phoneNumber c ::
  match sendMessage phoneNumber c with
  | Sent id ts =>
      json_reply 200 [("success", JBool true); ("messageId", JStr id);
                      ("timestamp", JNum ts 0)]
  | SendFailed m => fail_500 m
  end.

(** The ['end'] callback of [POST /send] (lines 545-594).  The message of
    the [TypeError] of destructuring [null] is V8's. *)
Definition on_send_end (body : string) : list reply_effect :=
  match JSON_parse body with
  | None =>
    if JSON_valid body then [OutOfModel "a JSON string with a character above U+00FF"]
    else fail_500 (json_error_message body)
  | Some JNull => fail_500 "Cannot destructure property 'to' of 'data' as it is null."
  | Some data =>
    let to := js_get data "to" in
    let message := js_get data "message" in
    let type := match js_get data "type" with None => JStr "text" | Some t => t end in
    if negb (truthy to) || negb (truthy message) then
      json_reply 400 [("error", JStr "Missing required fields: to, message")]
    else
      match phone_number to with
      | None => [OutOfModel "an array recipient holding a value the model does not print"]
      | Some (inr error_message) => fail_500 error_message
      | Some (inl phoneNumber) =>
        match type with
        | JStr t =>
          if String.eqb t "text" then send_and_reply phoneNumber (CText message)
          else if String.eqb t "location" then
            let latitude := js_get data "latitude" in
            let longitude := js_get data "longitude" in
            if negb (truthy latitude) || negb (truthy longitude) then
              json_reply 400 [("error", JStr "Location requires latitude and longitude")]
            else send_and_reply phoneNumber
                   (CLocation latitude longitude (js_get data "name") (js_get data "address"))
          else json_reply 400 [("error", JStr "Unsupported message type")]
        | _ => json_reply 400 [("error", JStr "Unsupported message type")]
        end
      end
  end.

Definition server_handler (req : request) : list reply_effect :=
  cors_headers ++
  if String.eqb (req_method req) "OPTIONS" then [WriteHead 200 []; EndBody None]
  else
    let authHeader := req_authorization req in
    let bad := match authHeader with
               | None => true
               | Some h => String.eqb h "" || negb (String.eqb h ("Bearer " ++ HTTP_AUTH_TOKEN))
               end in
    if bad then json_reply 401 [("error", JStr "Unauthorized")]
    else
      match pathname (req_url req) with
      | None => [OutOfModel "url.parse of this request target"]
      | Some path =>
        if String.eqb (req_method req) "POST" && path_is path "/send" then
          ReadBody :: on_send_end (req_body req)
        else if String.eqb (req_method req) "GET" && path_is path "/status" then
          json_reply 200 [("status", JStr "running");
                          ("whatsapp", JStr (if client_info then "connected" else "connecting"));
                          ("timestamp", JStr now_iso)]
        else json_reply 404 [("error", JStr "Not found")]
      end.

End Handler.

(** ** Reading of the claims *)

(** The filter rules in the order the spec lists them, evaluated left to
    right with a short circuit on the first [false]. *)
Definition filter_rules (apiConfig : api_config) (sender message : string)
    (ad : additional_data) : list bool :=
  let f := cfg_filters apiConfig in
  [enabled apiConfig;
   negb (skipOwnMessages f && ad_isFromMe ad);
   negb (skipGroupMessages f && String.eqb (ad_chatType ad) "group");
   match allowedSenders f with
   | [] => true
   | xs => existsb (String.eqb sender) xs
   end;
   match requiredKeywords f with
   | [] => true
   | kws => existsb (fun kw => includes (toLowerCase message) (toLowerCase kw)) kws
   end].

Fixpoint run_rules (rules : list bool) : bool :=
  match rules with
  | [] => true
  | r :: rs => if r then run_rules rs else false
  end.

Definition is_substring (t s : string) : Prop := exists p q, s = p ++ t ++ q.

(** The observable effects of a forwarder trace: everything but logging. *)
Definition is_io (e : effect) : bool :=
  match e with
  | Fetch _ _ _ _ | Sleep _ => true
  | _ => false
  end.

Definition io_effects (tr : list effect) : list effect := filter is_io tr.

Definition with_observability (c : api_config) (ls le dbg : bool) : api_config :=
  mkConfig (enabled c) (endpoint c) (headers c) (apiKey c) (timeout c)
           (retryAttempts c) (retryDelay c) (cfg_filters c) ls le dbg.

(** Counting the steps of a skeleton. *)
Definition fetch_count (ss : list step) : nat :=
  List.length (filter (fun s => match s with SFetch => true | _ => false end) ss).

Definition sleeps (ss : list step) : list Z :=
  flat_map (fun s => match s with SSleep d => [d] | SFetch => [] end) ss.

(** ** Concrete inputs *)

Definition example_config : api_config :=
  mkConfig true "https://api.example.com/webhook"
           [("Content-Type", "application/json")] "sk-test-1234" 10000 3 1000
           (mkFilters true false [] []) true true false.

Definition example_message : wa_message :=
  mkMessage "15551234567@c.us" "hello" "false_15551234567@c.us_3EB0C767D26A1D5E"
            "chat" false 1700000000 false.

Definition example_chat : wa_chat := mkChat false "Alice".

Definition example_additional : additional_data :=
  additionalData_of example_message example_chat.

Definition example_now (attempt : Z) : string := "2023-11-14T22:13:20.000Z".

(** Attempt 1 gets a 500, attempt 2 a 201, later ones a 500. *)
Definition example_fetch (attempt : Z) : outcome :=
  if attempt =? 2 then Response 201 (BodyText "created")
  else Response 500 (BodyText "Internal Server Error").

(** [s] ends with [t]. *)
Definition ends_with (s t : string) : bool :=
  (String.length t <=? String.length s)%nat
  && String.eqb (substring (String.length s - String.length t) (String.length t) s) t.

(** The status the handler writes first. *)
Fixpoint response_status (effs : list reply_effect) : option Z :=
  match effs with
  | [] => None
  | WriteHead st _ :: _ => Some st
  | _ :: effs' => response_status effs'
  end.

(** The [client.sendMessage] calls among the handler's effects. *)
Fixpoint sends (effs : list reply_effect) : list (json * content) :=
  match effs with
  | [] => []
  | SendMessage to c :: effs' => (to, c) :: sends effs'
  | _ :: effs' => sends effs'
  end.

Definition example_token : string := "your-secret-token-here".

(** A stand-in [client.sendMessage] that always succeeds. *)
Definition example_send (to : json) (c : content) : send_result :=
  Sent "true_15551234567@c.us_3EB0ABCDEF" 1700000000.

(** A stand-in for the engine's [SyntaxError] messages (the wording V8
    gives for the text [{]). *)
Definition example_json_error (text : string) : string :=
  "Expected property name or '}' in JSON at position 1".

Definition authed_post (url body : string) : request :=
  mkRequest "POST" url (Some ("Bearer " ++ example_token)) body.

Definition missing_fields_reply : list reply_effect :=
  json_reply 400 [("error", JStr "Missing required fields: to, message")].

Definition location_reply : list reply_effect :=
  json_reply 400 [("error", JStr "Location requires latitude and longitude")].

(** The handler answers once: its effects end with one [res.writeHead]
    followed by one [res.end], and neither occurs before. *)
Definition is_reply_part (e : reply_effect) : bool :=
  match e with
  | WriteHead _ _ | EndBody _ => true
  | _ => false
  end.

Fixpoint replies_once (effs : list reply_effect) : bool :=
  match effs with
  | [WriteHead _ _; EndBody _] => true
  | e :: effs' => negb (is_reply_part e) && replies_once effs'
  | [] => false
  end.

(** A [fetch] in a trace goes to [url] with headers [hdrs] and the given
    timeout. *)
Definition fetch_to (url : string) (hdrs : list (string * string)) (timeout_ms : Z)
    (e : effect) : Prop :=
  match e with
  | Fetch u h _ t => u = url /\ h = hdrs /\ t = timeout_ms
  | _ => True
  end.

(** The configuration with another [requiredKeywords] list. *)
Definition with_requiredKeywords (c : api_config) (kws : list string) : api_config :=
  let f := cfg_filters c in
  mkConfig (enabled c) (endpoint c) (headers c) (apiKey c) (timeout c)
           (retryAttempts c) (retryDelay c)
           (mkFilters (skipOwnMessages f) (skipGroupMessages f) (allowedSenders f) kws)
           (logSuccess c) (logErrors c) (debug c).

(** ** [testAPIConnection] (part_000, lines 158-191; example.js, lines 138-171) *)

Definition testPayload (now_iso : string) : json :=
  JObj [("sender", JStr "test@c.us");
        ("message", JStr "This is a test message from WhatsApp bot");
        ("timestamp", JStr now_iso); ("test", JBool true)].

Definition testAPIConnection (apiConfig : api_config) (now_iso : string) (o : outcome)
  : list effect :=
  Log "Testing API connection..."
  :: Fetch (endpoint apiConfig) (request_headers apiConfig) (testPayload now_iso)
           (timeout apiConfig)
  :: match o with
     | Response status text =>
       Log ("Test API Response Status: " ++ Z_to_string status)
       :: match text with
          | BodyText t =>
            [Log ("Test API Response Body: " ++ t);
             Log (if response_ok status then "API connection test successful!"
                  else "API connection test failed!")]
          | BodyError m => [LogError ("API connection test error: " ++ m)]
          end
     | FetchError m => [LogError ("API connection test error: " ++ m)]
     end.

(** ** [initializeWhatsApp] (part_000, lines 626-659) *)

Inductive init_effect :=
| ILog (line : string)             (** [console.log] *)
| IError (line : string)           (** [console.error] *)
| Initialize                       (** [await client.initialize()] *)
| SetTimeout (ms : Z)              (** the retry callback is scheduled *)
| Exit (code : Z).                 (** [process.exit(code)] *)

(** [init 1] and [init 2] are the outcomes of the first and of the retried
    [client.initialize()]: [None] when it resolves, [Some m] when it
    rejects with an error of message [m].  The effects are listed in time
    order, the retry callback's after the timer. *)
Definition initializeWhatsApp (init : nat -> option string) : list init_effect :=
  ([ILog "Initializing WhatsApp client...";
    ILog "Setting up Puppeteer with headless mode...";
    ILog "Starting client initialization..."; Initialize] ++
  match init 1%nat with
  | None => [ILog "Client initialization completed"]
  | Some m =>
    [IError ("Error initializing WhatsApp client: " ++ m); IError "Full error:"] ++
    if includes m "already exists" then
      [ILog "Detected Puppeteer binding conflict. Attempting to restart...";
       SetTimeout 5000; ILog "Retrying WhatsApp client initialization..."; Initialize] ++
      match init 2%nat with
      | None => []
      | Some m2 => [IError ("Retry failed: " ++ m2);
                    ILog "Try restarting the service or clearing the cache"; Exit 1]
      end
    else [IError "Fatal error during initialization"; Exit 1]
  end)%list.

Definition init_calls (tr : list init_effect) : nat :=
  List.length (filter (fun e => match e with Initialize => true | _ => false end) tr).

(** ** The forwarder of example.js (lines 62-135) *)

Module ExampleJs.
Section Forward.

Variable apiConfig : api_config.
Variables sender message : string.
Variable additionalData : list (string * json).
Variable now_iso : Z -> string.
Variable fetch : Z -> outcome.

Let retry := retryAttempts apiConfig.
Let retry_delay := retryDelay apiConfig.

Definition headers_json (h : list (string * string)) : json :=
  JObj (map (fun kv => (fst kv, JStr (snd kv))) h).

Definition debug_request_logs (attempt : Z) : list effect :=
  [Log ("DEBUG: Attempting API call (" ++ attempt_str apiConfig attempt ++ ")");
   Log ("DEBUG: Endpoint: " ++ endpoint apiConfig);
   LogValue "DEBUG: Payload:" (payload sender message additionalData now_iso attempt);
   LogValue "DEBUG: Headers:" (headers_json (request_headers apiConfig))].

Definition response_logs (status : Z) : list effect :=
  [Log ("DEBUG: Response status: " ++ Z_to_string status);
   Log "DEBUG: Response headers:"].

Definition success_logs (status : Z) : list effect :=
  if logSuccess apiConfig then
    [Log ("Message forwarded to API successfully. Status: " ++ Z_to_string status)]
  else [].

Definition http_error_logs (status : Z) (responseText : string) : list effect :=
  if logErrors apiConfig then
    [LogError ("API request failed. Status: " ++ Z_to_string status
               ++ ", Response: " ++ responseText)]
  else [].

Definition catch_logs (attempt : Z) (error_message : string) : list effect :=
  if logErrors apiConfig then
    [LogError ("Error forwarding message to API (attempt "
               ++ attempt_str apiConfig attempt ++ "): " ++ error_message);
     LogError "DEBUG: Full error:"]
  else [].

Definition wait_before_retry : list effect := [Sleep retry_delay].

(** Unlike part_000, the body is read with [response.text()] before
    [response.ok] is looked at: a body that cannot be read sends every
    response, a 2xx one included, to the [catch]. *)
Fixpoint attempts (fuel : nat) (attempt : Z) : list effect * bool :=
  match fuel with
  | O => ([], false)
  | S fuel' =>
    if attempt <=? retry then
      let sent := (debug_request_logs attempt
                   ++ [Fetch (endpoint apiConfig) (request_headers apiConfig)
                             (payload sender message additionalData now_iso attempt)
                             (timeout apiConfig)])%list in
      let failed (tr : list effect) :=
        if attempt =? retry then (tr, false)
        else let (rest, r) := attempts fuel' (attempt + 1) in
             ((tr ++ wait_before_retry ++ rest)%list, r) in
      match fetch attempt with
      | Response status text =>
        let got := (sent ++ response_logs status)%list in
        match text with
        | BodyError m => failed (got ++ catch_logs attempt m)%list
        | BodyText t =>
          let got' := (got ++ [Log ("DEBUG: Response body: " ++ t)])%list in
          if response_ok status then ((got' ++ success_logs status)%list, true)
          else failed (got' ++ http_error_logs status t)%list
        end
      | FetchError m => failed (sent ++ catch_logs attempt m)%list
      end
    else ([], false)
  end.

Definition forwardMessageToAPI : list effect * bool :=
  attempts (Z.to_nat retry) 1.

End Forward.

(** How part_000 would have to see an outcome to act like example.js: a
    2xx response whose body cannot be read is an error. *)
Definition read_outcome (o : outcome) : outcome :=
  match o with
  | Response status (BodyError m) => if response_ok status then FetchError m else o
  | _ => o
  end.

(** ** The bot commands of example.js's ['message'] handler (lines 270-319) *)

(** [s.split(sep)] for a one-character separator. *)
Fixpoint split (sep : ascii) (s : string) : list string :=
  match s with
  | EmptyString => [EmptyString]
  | String c r =>
    if Ascii.eqb c sep then EmptyString :: split sep r
    else match split sep r with
         | w :: ws => String c w :: ws
         | [] => [String c EmptyString]
         end
  end.

(** [s.indexOf(t)], counting from index [i]. *)
Fixpoint index_of_from (s t : string) (i : Z) : Z :=
  if String.prefix t s then i
  else match s with
       | EmptyString => -1
       | String _ r => index_of_from r t (i + 1)
       end.

Definition index_of (s t : string) : Z := index_of_from s t 0.

(** [s.slice(start)] (and [s.slice(start, s.length)]). *)
Definition slice (s : string) (start : Z) : string :=
  let len := Z.of_nat (String.length s) in
  let from := if start <? 0 then Z.max (len + start) 0 else Z.min start len in
  substring (Z.to_nat from) (Z.to_nat (len - from)) s.

Inductive bot_effect :=
| Reply (text : string)                        (** [msg.reply(text)] *)
| ReplyPreview (text : string)                 (** [msg.reply(text, null, {linkPreview: true})] *)
| SendText (to text : string)                  (** [client.sendMessage(to, text)] *)
| SendSeen                                     (** [chat.sendSeen()] *)
| SetSubject (subject : string)                (** [chat.setSubject] *)
| SetDescription (description : string)        (** [chat.setDescription] *)
| LeaveGroup                                   (** [chat.leave()] *)
| BotTypeError (what : string)                 (** the handler throws *)
| LaterCommands.                               (** the [else if] branches from [!join] on *)

Definition group_only : string := "This command can only be used in a group!".

Definition bot_commands (msg : wa_message) (chat : wa_chat) : list bot_effect :=
  let body := msg_body msg in
  if String.eqb body "!ping reply" then [Reply "pong"]
  else if String.eqb body "!ping" then [SendText (msg_from msg) "pong"]
  else if String.prefix "!sendto " body then
    match split " " body with
    | _ :: number :: _ =>
      let messageIndex := index_of body number + Z.of_nat (String.length number) in
      let message := slice body messageIndex in
      let number := if includes number "@c.us" then number else number ++ "@c.us" in
      [SendSeen; SendText number message]
    | _ => [BotTypeError "Cannot read properties of undefined (reading 'length')"]
    end
  else if String.prefix "!subject " body then
    if chat_isGroup chat then [SetSubject (slice body 9)] else [Reply group_only]
  else if String.prefix "!echo " body then [Reply (slice body 6)]
  else if String.prefix "!preview " body then [ReplyPreview (slice body 9)]
  else if String.prefix "!desc " body then
    if chat_isGroup chat then [SetDescription (slice body 6)] else [Reply group_only]
  else if String.eqb body "!leave" then
    if chat_isGroup chat then [LeaveGroup] else [Reply group_only]
  else [LaterCommands].

End ExampleJs.

(** ** Lemmas on strings *)

Lemma prefix_spec : forall t s, String.prefix t s = true <-> exists q, s = t ++ q.
Proof.
  induction t as [|a t IH]; intros s; split.
  - intros _. exists s. reflexivity.
  - intros _. destruct s; reflexivity.
  - destruct s as [|b s]; simpl; [discriminate|].
    destruct (ascii_dec a b) as [->|]; [|discriminate].
    intros H. apply IH in H as [q ->]. exists q. reflexivity.
  - intros [q ->]. simpl. destruct (ascii_dec a a) as [_|n]; [|congruence].
    apply IH. exists q. reflexivity.
Qed.

Lemma includes_spec : forall s t, includes s t = true <-> is_substring t s.
Proof.
  induction s as [|a s IH]; intros t; cbn [includes]; rewrite orb_true_iff, prefix_spec.
  - split.
    + intros [[q Hq]|H]; [|discriminate]. exists EmptyString, q. exact Hq.
    + intros [p [q Hq]]. left. exists q. destruct p; [exact Hq|discriminate].
  - rewrite IH. split.
    + intros [[q Hq]|[p [q Hq]]].
      * exists EmptyString, q. exact Hq.
      * exists (String a p), q. rewrite Hq. reflexivity.
    + intros [p [q Hq]]. destruct p as [|b p].
      * left. exists q. exact Hq.
      * right. injection Hq as -> Hq. exists p, q. exact Hq.
Qed.

Lemma array_includes_spec : forall xs x, array_includes xs x = true <-> In x xs.
Proof.
  intros xs x. unfold array_includes. rewrite existsb_exists. split.
  - intros [y [Hy Heq]]. apply String.eqb_eq in Heq. subst. exact Hy.
  - intros H. exists x. split; [exact H|apply String.eqb_refl].
Qed.

(** ** Lemmas on forwarder traces *)

Open Scope list_scope.

Lemma skeleton_app : forall t1 t2, skeleton (t1 ++ t2) = skeleton t1 ++ skeleton t2.
Proof. induction t1 as [|e t1 IH]; intros; [reflexivity|destruct e; simpl; rewrite ?IH; reflexivity]. Qed.

Lemma io_effects_app : forall t1 t2, io_effects (t1 ++ t2) = io_effects t1 ++ io_effects t2.
Proof. intros. apply filter_app. Qed.

Ltac logs_only :=
  match goal with
  | |- context [if ?b then _ else _] => destruct b
  end.

Section ForwardLemmas.
Variables (cfg : api_config) (sender message : string)
          (ad : list (string * json)) (now : Z -> string) (fetch : Z -> outcome).

Lemma skeleton_debug_request_logs a : skeleton (debug_request_logs cfg sender message ad now a) = [].
Proof. unfold debug_request_logs. repeat logs_only; reflexivity. Qed.
Lemma skeleton_success_logs st : skeleton (success_logs cfg st) = [].
Proof. unfold success_logs. repeat logs_only; reflexivity. Qed.
Lemma skeleton_http_error_logs st t : skeleton (http_error_logs cfg st t) = [].
Proof. unfold http_error_logs. repeat logs_only; reflexivity. Qed.
Lemma skeleton_catch_logs a m : skeleton (catch_logs cfg a m) = [].
Proof. unfold catch_logs. repeat logs_only; reflexivity. Qed.
Lemma skeleton_wait : skeleton (wait_before_retry cfg) = [SSleep (retryDelay cfg)].
Proof. unfold wait_before_retry. repeat logs_only; reflexivity. Qed.

End ForwardLemmas.


Lemma run_rules_true : forall rs, run_rules rs = true <-> Forall (fun b => b = true) rs.
Proof.
  induction rs as [|r rs IH]; simpl.
  - split; constructor.
  - destruct r; [rewrite IH|]; split; intros H.
    + constructor; auto.
    + inversion H; assumption.
    + discriminate.
    + inversion H; discriminate.
Qed.

Lemma shouldForwardMessage_run_rules : forall cfg sender message ad,
  shouldForwardMessage cfg sender message ad = run_rules (filter_rules cfg sender message ad).
Proof.
  intros [en ep hs key tmo ra rd [own grp allowed kws] ls le dbg] sender message ad.
  unfold shouldForwardMessage, filter_rules; cbn.
  destruct en; [|reflexivity]; cbn.
  destruct (own && ad_isFromMe ad); [reflexivity|]; cbn.
  destruct (grp && String.eqb (ad_chatType ad) "group"); [reflexivity|]; cbn.
  destruct allowed as [|x xs]; cbn.
  - destruct kws as [|k ks]; cbn; [reflexivity|].
    destruct (includes _ _ || _); reflexivity.
  - destruct (String.eqb sender x || _); cbn; [|reflexivity].
    destruct kws as [|k ks]; cbn; [reflexivity|].
    destruct (includes _ _ || _); reflexivity.
Qed.

(** ** C1 *)

(** C1: [shouldForwardMessage] is the left-to-right, short-circuit
    evaluation of the five rules (forwarding enabled; not an own message
    when own messages are skipped; not a group message when group messages
    are skipped; sender in a non-empty [allowedSenders] by exact match;
    some keyword of a non-empty [requiredKeywords] a substring of the body
    after lower-casing both), and it is [true] exactly when all of them
    hold.  Being a Rocq function it has no effects. *)
Theorem shouldForwardMessage_spec : forall cfg sender message ad,
  let f := cfg_filters cfg in
  shouldForwardMessage cfg sender message ad = run_rules (filter_rules cfg sender message ad)
  /\ (shouldForwardMessage cfg sender message ad = true <->
      enabled cfg = true
      /\ ~ (skipOwnMessages f = true /\ ad_isFromMe ad = true)
      /\ ~ (skipGroupMessages f = true /\ ad_chatType ad = "group"%string)
      /\ (allowedSenders f = [] \/ In sender (allowedSenders f))
      /\ (requiredKeywords f = []
          \/ exists kw, In kw (requiredKeywords f)
                        /\ is_substring (toLowerCase kw) (toLowerCase message))).
Proof.
  intros cfg sender message ad f.
  split; [apply shouldForwardMessage_run_rules|].
  rewrite shouldForwardMessage_run_rules, run_rules_true.
  unfold filter_rules; fold f.
  rewrite !Forall_cons_iff.
  assert (Hown : negb (skipOwnMessages f && ad_isFromMe ad) = true
                 <-> ~ (skipOwnMessages f = true /\ ad_isFromMe ad = true)).
  { rewrite negb_true_iff, andb_false_iff.
    destruct (skipOwnMessages f), (ad_isFromMe ad); intuition congruence. }
  assert (Hgrp : negb (skipGroupMessages f && String.eqb (ad_chatType ad) "group") = true
                 <-> ~ (skipGroupMessages f = true /\ ad_chatType ad = "group"%string)).
  { rewrite negb_true_iff, andb_false_iff, <- String.eqb_eq.
    destruct (skipGroupMessages f), (String.eqb (ad_chatType ad) "group");
      intuition congruence. }
  assert (Hsnd : (match allowedSenders f with [] => true
                  | xs => existsb (String.eqb sender) xs end) = true
                 <-> (allowedSenders f = [] \/ In sender (allowedSenders f))).
  { destruct (allowedSenders f) as [|x xs] eqn:E.
    - split; [left; reflexivity|reflexivity].
    - fold (array_includes (x :: xs) sender). rewrite array_includes_spec.
      split; [right; assumption|intros [H|H]; [discriminate|exact H]]. }
  assert (Hkw : (match requiredKeywords f with [] => true
                 | kws => existsb (fun kw => includes (toLowerCase message)
                                                      (toLowerCase kw)) kws end) = true
                <-> (requiredKeywords f = []
                     \/ exists kw, In kw (requiredKeywords f)
                                   /\ is_substring (toLowerCase kw) (toLowerCase message))).
  { destruct (requiredKeywords f) as [|k ks] eqn:E.
    - split; [left; reflexivity|reflexivity].
    - rewrite existsb_exists. split.
      + intros [kw [Hin Hinc]]. right. exists kw. rewrite <- includes_spec. auto.
      + intros [H|[kw [Hin Hinc]]]; [discriminate|].
        exists kw. rewrite includes_spec. auto. }
  rewrite Hown, Hgrp, Hsnd, Hkw.
  split.
  - intros (H1 & H2 & H3 & H4 & H5 & _). auto.
  - intros (H1 & H2 & H3 & H4 & H5). repeat split; auto.
Qed.

(** ** The forwarder's loop, one iteration at a time *)

Section Iteration.
Variables (cfg : api_config) (sender message : string)
          (ad : list (string * json)) (now : Z -> string) (fetch : Z -> outcome).

Let loop := attempts cfg sender message ad now fetch.

Lemma attempts_step_fail : forall f a,
  a <= retryAttempts cfg -> failing (fetch a) = true ->
  exists logs, skeleton logs = [SFetch] /\
    loop (S f) a =
      if a =? retryAttempts cfg then (logs, false)
      else let (rest, r) := loop f (a + 1) in (logs ++ wait_before_retry cfg ++ rest, r).
Proof.
  intros f a Ha Hf. unfold loop. cbn [attempts].
  rewrite (proj2 (Z.leb_le _ _) Ha).
  destruct (fetch a) as [st [t|m]|m]; cbn [failing] in Hf.
  - rewrite negb_true_iff in Hf. rewrite Hf.
    eexists; split; [|reflexivity].
    rewrite !skeleton_app, skeleton_debug_request_logs, skeleton_http_error_logs.
    reflexivity.
  - rewrite negb_true_iff in Hf. rewrite Hf.
    eexists; split; [|reflexivity].
    rewrite !skeleton_app, skeleton_debug_request_logs, skeleton_catch_logs.
    reflexivity.
  - eexists; split; [|reflexivity].
    rewrite !skeleton_app, skeleton_debug_request_logs, skeleton_catch_logs.
    reflexivity.
Qed.

Lemma attempts_step_ok : forall f a st t,
  a <= retryAttempts cfg -> fetch a = Response st t -> response_ok st = true ->
  exists logs, skeleton logs = [SFetch] /\ loop (S f) a = (logs, true).
Proof.
  intros f a st t Ha Hf Hok. unfold loop. cbn [attempts].
  rewrite (proj2 (Z.leb_le _ _) Ha), Hf, Hok.
  eexists; split; [|reflexivity].
  rewrite !skeleton_app, skeleton_debug_request_logs, skeleton_success_logs.
  reflexivity.
Qed.

(** Every attempt from [a] to the last fails. *)
Lemma attempts_all_fail : forall f a,
  1 <= a -> Z.of_nat f = retryAttempts cfg - a + 1 ->
  (forall i, a <= i <= retryAttempts cfg -> failing (fetch i) = true) ->
  snd (loop f a) = false /\
  skeleton (fst (loop f a)) = attempts_pattern f (retryDelay cfg).
Proof.
  induction f as [|f IH]; intros a Ha Hf Hfail.
  - split; reflexivity.
  - destruct (attempts_step_fail f a) as [logs [Hlogs Heq]]; [lia|apply Hfail; lia|].
    rewrite Heq.
    destruct (Z.eqb_spec a (retryAttempts cfg)) as [Hlast|Hlast].
    + assert (f = O) by lia. subst f. split; [reflexivity|exact Hlogs].
    + destruct (IH (a + 1)) as [IHr IHs]; [lia|lia|intros i Hi; apply Hfail; lia|].
      destruct (loop f (a + 1)) as [rest r] eqn:E. cbn in IHr, IHs |- *.
      split; [exact IHr|].
      rewrite !skeleton_app, Hlogs, skeleton_wait, IHs.
      destruct f; [lia|reflexivity].
Qed.

(** Attempts [a .. k-1] fail and attempt [k] succeeds. *)
Lemma attempts_succeed_at : forall f a k st t,
  1 <= a <= k -> k <= retryAttempts cfg -> Z.of_nat f = retryAttempts cfg - a + 1 ->
  (forall i, a <= i < k -> failing (fetch i) = true) ->
  fetch k = Response st t -> response_ok st = true ->
  snd (loop f a) = true /\
  skeleton (fst (loop f a)) = attempts_pattern (Z.to_nat (k - a + 1)) (retryDelay cfg).
Proof.
  induction f as [|f IH]; intros a k st t Hak Hk Hf Hfail Hfk Hok.
  - lia.
  - destruct (Z.eq_dec a k) as [<-|Hne].
    + destruct (attempts_step_ok f a st t) as [logs [Hlogs Heq]]; [lia|exact Hfk|exact Hok|].
      rewrite Heq. replace (Z.to_nat (a - a + 1)) with 1%nat by lia.
      split; [reflexivity|exact Hlogs].
    + destruct (attempts_step_fail f a) as [logs [Hlogs Heq]]; [lia|apply Hfail; lia|].
      rewrite Heq.
      destruct (Z.eqb_spec a (retryAttempts cfg)) as [Hlast|Hlast]; [lia|].
      destruct (IH (a + 1) k st t) as [IHr IHs]; [lia|lia|lia|intros i Hi; apply Hfail; lia|exact Hfk|exact Hok|].
      destruct (loop f (a + 1)) as [rest r] eqn:E. cbn in IHr, IHs |- *.
      split; [exact IHr|].
      rewrite !skeleton_app, Hlogs, skeleton_wait, IHs.
      replace (Z.to_nat (k - a + 1)) with (S (Z.to_nat (k - (a + 1) + 1))) by lia.
      destruct (Z.to_nat (k - (a + 1) + 1)) eqn:E2; [lia|reflexivity].
Qed.

End Iteration.

Section IoLemmas.
Variables (cfg : api_config) (sender message : string)
          (ad : list (string * json)) (now : Z -> string).

Lemma io_debug_request_logs a : io_effects (debug_request_logs cfg sender message ad now a) = [].
Proof. unfold debug_request_logs. repeat logs_only; reflexivity. Qed.
Lemma io_success_logs st : io_effects (success_logs cfg st) = [].
Proof. unfold success_logs. repeat logs_only; reflexivity. Qed.
Lemma io_http_error_logs st t : io_effects (http_error_logs cfg st t) = [].
Proof. unfold http_error_logs. repeat logs_only; reflexivity. Qed.
Lemma io_catch_logs a m : io_effects (catch_logs cfg a m) = [].
Proof. unfold catch_logs. repeat logs_only; reflexivity. Qed.
Lemma io_wait : io_effects (wait_before_retry cfg) = [Sleep (retryDelay cfg)].
Proof. unfold wait_before_retry. repeat logs_only; reflexivity. Qed.

End IoLemmas.

Ltac io_simpl :=
  rewrite ?io_effects_app, ?io_debug_request_logs, ?io_success_logs,
    ?io_http_error_logs, ?io_catch_logs, ?io_wait.

Lemma attempts_noninterference : forall cfg ls le dbg sender message ad now fetch f a,
  let t1 := attempts cfg sender message ad now fetch f a in
  let t2 := attempts (with_observability cfg ls le dbg) sender message ad now fetch f a in
  snd t1 = snd t2 /\ io_effects (fst t1) = io_effects (fst t2).
Proof.
  intros cfg ls le dbg sender message ad now fetch f.
  induction f as [|f IH]; intros a t1 t2; subst t1 t2; [split; reflexivity|].
  cbn [attempts]. cbn [retryAttempts with_observability].
  destruct (a <=? retryAttempts cfg); [|split; reflexivity].
  destruct (IH (a + 1)) as [IHr IHio].
  destruct (attempts cfg sender message ad now fetch f (a + 1)) as [rest1 r1].
  destruct (attempts (with_observability cfg ls le dbg) sender message ad now fetch f (a + 1))
    as [rest2 r2].
  cbn [fst snd] in IHr, IHio.
  assert (Hh : request_headers (with_observability cfg ls le dbg) = request_headers cfg)
    by reflexivity.
  rewrite Hh.
  destruct (fetch a) as [st [t|m]|m];
    [destruct (response_ok st)|destruct (response_ok st)|];
    try (destruct (a =? retryAttempts cfg));
    cbn [fst snd]; (split; [assumption || reflexivity|]); io_simpl;
    cbn [retryDelay with_observability endpoint timeout io_effects filter is_io];
    rewrite ?IHio; reflexivity.
Qed.

Lemma attempts_pattern_counts : forall n d,
  fetch_count (attempts_pattern n d) = n /\ sleeps (attempts_pattern n d) = repeat d (n - 1).
Proof.
  induction n as [|n IH]; intros d; [split; reflexivity|].
  destruct n as [|n]; [split; reflexivity|].
  destruct (IH d) as [H1 H2].
  change (attempts_pattern (S (S n)) d) with (SFetch :: SSleep d :: attempts_pattern (S n) d).
  unfold fetch_count, sleeps in *. cbn [filter flat_map List.length app].
  rewrite H1, H2. split; [reflexivity|].
  replace (S (S n) - 1)%nat with (S (S n - 1))%nat by lia. reflexivity.
Qed.

(** ** C2, C7, C9: the forwarder *)

(** C2: with [retryAttempts = N >= 1] and every attempt failing (a
    non-2xx response, a failed body read or a rejected [fetch]), the
    forwarder fetches exactly [N] times, sleeps [retryDelay] between
    consecutive fetches ([N - 1] sleeps, none after the last) and returns
    [false]. *)
Theorem forward_all_attempts_fail : forall cfg sender message ad now fetch,
  1 <= retryAttempts cfg ->
  (forall i, 1 <= i <= retryAttempts cfg -> failing (fetch i) = true) ->
  let (tr, r) := forwardMessageToAPI cfg sender message ad now fetch in
  r = false
  /\ skeleton tr = attempts_pattern (Z.to_nat (retryAttempts cfg)) (retryDelay cfg)
  /\ fetch_count (skeleton tr) = Z.to_nat (retryAttempts cfg)
  /\ sleeps (skeleton tr) = repeat (retryDelay cfg) (Z.to_nat (retryAttempts cfg) - 1).
Proof.
  intros cfg sender message ad now fetch HN Hfail.
  destruct (attempts_all_fail cfg sender message ad now fetch
              (Z.to_nat (retryAttempts cfg)) 1) as [Hr Hs]; [lia|lia|exact Hfail|].
  unfold forwardMessageToAPI.
  destruct (attempts cfg sender message ad now fetch (Z.to_nat (retryAttempts cfg)) 1)
    as [tr r].
  cbn [fst snd] in Hr, Hs. rewrite Hs.
  destruct (attempts_pattern_counts (Z.to_nat (retryAttempts cfg)) (retryDelay cfg)).
  auto.
Qed.

(** C7: with [retryAttempts = N >= 1] and [1 <= k <= N], when attempts
    [1 .. k-1] fail and attempt [k] gets a 2xx response, the forwarder
    returns [true] after exactly [k] fetches: its trace ends with the
    [k]-th fetch (and log lines only). *)
Theorem forward_succeeds_at_k : forall cfg sender message ad now fetch k st t,
  1 <= k <= retryAttempts cfg ->
  (forall i, 1 <= i < k -> failing (fetch i) = true) ->
  fetch k = Response st t -> response_ok st = true ->
  let (tr, r) := forwardMessageToAPI cfg sender message ad now fetch in
  r = true
  /\ skeleton tr = attempts_pattern (Z.to_nat k) (retryDelay cfg)
  /\ fetch_count (skeleton tr) = Z.to_nat k.
Proof.
  intros cfg sender message ad now fetch k st t Hk Hfail Hfk Hok.
  destruct (attempts_succeed_at cfg sender message ad now fetch
              (Z.to_nat (retryAttempts cfg)) 1 k st t) as [Hr Hs];
    [lia|lia|lia|exact Hfail|exact Hfk|exact Hok|].
  unfold forwardMessageToAPI.
  destruct (attempts cfg sender message ad now fetch (Z.to_nat (retryAttempts cfg)) 1)
    as [tr r].
  cbn [fst snd] in Hr, Hs. rewrite Hs.
  replace (k - 1 + 1) with k by lia.
  destruct (attempts_pattern_counts (Z.to_nat k) (retryDelay cfg)).
  auto.
Qed.

(** C9: changing [logSuccess], [logErrors] and [debug] changes neither
    the result of the forwarder nor its fetches and sleeps (with their
    requests and delays), for every sequence of fetch outcomes. *)
Theorem forward_observability_noninterference :
  forall cfg ls le dbg sender message ad now fetch,
  let (tr1, r1) := forwardMessageToAPI cfg sender message ad now fetch in
  let (tr2, r2) := forwardMessageToAPI (with_observability cfg ls le dbg)
                     sender message ad now fetch in
  r1 = r2 /\ io_effects tr1 = io_effects tr2 /\ skeleton tr1 = skeleton tr2.
Proof.
  intros cfg ls le dbg sender message ad now fetch.
  unfold forwardMessageToAPI.
  cbn [retryAttempts with_observability].
  destruct (attempts_noninterference cfg ls le dbg sender message ad now fetch
              (Z.to_nat (retryAttempts cfg)) 1) as [Hr Hio].
  destruct (attempts cfg sender message ad now fetch (Z.to_nat (retryAttempts cfg)) 1)
    as [tr1 r1].
  destruct (attempts (with_observability cfg ls le dbg) sender message ad now fetch
              (Z.to_nat (retryAttempts cfg)) 1) as [tr2 r2].
  cbn [fst snd] in Hr, Hio.
  split; [exact Hr|split; [exact Hio|]].
  (* the skeleton is a function of the io effects *)
  assert (Hsk : forall tr, skeleton tr = skeleton (io_effects tr)).
  { induction tr as [|e tr IHt]; [reflexivity|].
    destruct e; cbn; rewrite IHt; reflexivity. }
  rewrite (Hsk tr1), (Hsk tr2), Hio. reflexivity.
Qed.

Lemma forward_all_attempts_fail_witness :
  let (tr, r) := forwardMessageToAPI example_config "15551234567@c.us" "hello"
                   (additional_json example_additional) example_now
                   (fun _ => FetchError "connect ECONNREFUSED") in
  r = false
  /\ skeleton tr = attempts_pattern (Z.to_nat (retryAttempts example_config))
                                    (retryDelay example_config)
  /\ fetch_count (skeleton tr) = Z.to_nat (retryAttempts example_config)
  /\ sleeps (skeleton tr) = repeat (retryDelay example_config)
                                   (Z.to_nat (retryAttempts example_config) - 1).
Proof.
  apply (forward_all_attempts_fail example_config "15551234567@c.us" "hello"
           (additional_json example_additional) example_now
           (fun _ => FetchError "connect ECONNREFUSED")).
  - cbn. lia.
  - intros i _. reflexivity.
Defined.

Lemma forward_succeeds_at_k_witness :
  let (tr, r) := forwardMessageToAPI example_config "15551234567@c.us" "hello"
                   (additional_json example_additional) example_now example_fetch in
  r = true
  /\ skeleton tr = attempts_pattern (Z.to_nat 2) (retryDelay example_config)
  /\ fetch_count (skeleton tr) = Z.to_nat 2.
Proof.
  apply (forward_succeeds_at_k example_config "15551234567@c.us" "hello"
           (additional_json example_additional) example_now example_fetch 2 201
           (BodyText "created")).
  - cbn. lia.
  - intros i Hi. replace i with 1 by lia. reflexivity.
  - reflexivity.
  - reflexivity.
Defined.

(** ** C3: the forwarded payload *)

Lemma fetched_payloads_app : forall t1 t2,
  fetched_payloads (t1 ++ t2) = fetched_payloads t1 ++ fetched_payloads t2.
Proof. induction t1 as [|e t1 IH]; intros; [reflexivity|destruct e; cbn; rewrite ?IH; reflexivity]. Qed.

Section Payloads.
Variables (cfg : api_config) (sender message : string)
          (ad : list (string * json)) (now : Z -> string) (fetch : Z -> outcome).

Lemma payloads_debug_request_logs a : fetched_payloads (debug_request_logs cfg sender message ad now a) = [].
Proof. unfold debug_request_logs. repeat logs_only; reflexivity. Qed.
Lemma payloads_success_logs st : fetched_payloads (success_logs cfg st) = [].
Proof. unfold success_logs. repeat logs_only; reflexivity. Qed.
Lemma payloads_http_error_logs st t : fetched_payloads (http_error_logs cfg st t) = [].
Proof. unfold http_error_logs. repeat logs_only; reflexivity. Qed.
Lemma payloads_catch_logs a m : fetched_payloads (catch_logs cfg a m) = [].
Proof. unfold catch_logs. repeat logs_only; reflexivity. Qed.
Lemma payloads_wait : fetched_payloads (wait_before_retry cfg) = [].
Proof. unfold wait_before_retry. repeat logs_only; reflexivity. Qed.

(** Every body the loop posts is [payload] of some attempt. *)
Lemma attempts_payloads : forall f a,
  Forall (fun p => exists i, p = payload sender message ad now i)
         (fetched_payloads (fst (attempts cfg sender message ad now fetch f a))).
Proof.
  induction f as [|f IH]; intros a; [constructor|].
  cbn [attempts].
  destruct (a <=? retryAttempts cfg); [|constructor].
  specialize (IH (a + 1)).
  destruct (attempts cfg sender message ad now fetch f (a + 1)) as [rest r].
  cbn [fst] in IH.
  destruct (fetch a) as [st [t|m]|m];
    [destruct (response_ok st)|destruct (response_ok st)|];
    try (destruct (a =? retryAttempts cfg));
    cbn [fst];
    rewrite ?fetched_payloads_app, ?payloads_debug_request_logs, ?payloads_success_logs,
      ?payloads_http_error_logs, ?payloads_catch_logs, ?payloads_wait;
    cbn [fetched_payloads app];
    (constructor; [eexists; reflexivity|]);
    rewrite ?app_nil_r; try constructor; assumption.
Qed.

End Payloads.

(** Every body the ['message'] handler posts carries, under [timestamp],
    the message's epoch seconds from [additionalData]. *)
Lemma on_message_payload_timestamp : forall cfg msg chat now fetch,
  Forall (fun p => js_get p "timestamp" = Some (JNum (msg_timestamp msg) 0))
         (fetched_payloads (fst (on_message cfg msg chat now fetch))).
Proof.
  intros cfg msg chat now fetch. unfold on_message.
  destruct (shouldForwardMessage _ _ _ _); [|constructor].
  unfold forwardMessageToAPI.
  eapply Forall_impl; [|apply attempts_payloads].
  intros p [i ->]. reflexivity.
Qed.

(** C3: the payload posted for a message does not carry the ISO-8601
    forwarding time under [timestamp]: the spread of [additionalData],
    whose [timestamp] is the message's epoch seconds, overwrites it.  On
    the example message (sent at 1700000000, forwarded at
    2023-11-14T22:13:20.000Z, first attempt failing, second accepted) the
    two posted bodies are these. *)
Theorem forward_payload_timestamp_overwritten :
  fetched_payloads (fst (on_message example_config example_message example_chat
                                    example_now example_fetch))
  = [JObj [("sender", JStr "15551234567@c.us"); ("message", JStr "hello");
           ("timestamp", JNum 1700000000 0);
           ("messageId", JStr "false_15551234567@c.us_3EB0C767D26A1D5E");
           ("chatType", JStr "private"); ("chatName", JStr "Alice");
           ("messageType", JStr "chat"); ("hasMedia", JBool false);
           ("isFromMe", JBool false)];
     JObj [("sender", JStr "15551234567@c.us"); ("message", JStr "hello");
           ("timestamp", JNum 1700000000 0);
           ("messageId", JStr "false_15551234567@c.us_3EB0C767D26A1D5E");
           ("chatType", JStr "private"); ("chatName", JStr "Alice");
           ("messageType", JStr "chat"); ("hasMedia", JBool false);
           ("isFromMe", JBool false)]]
  /\ Forall (fun p => js_get p "timestamp" <> Some (JStr (example_now 1)))
            (fetched_payloads (fst (on_message example_config example_message example_chat
                                               example_now example_fetch))).
Proof.
  split; [vm_compute; reflexivity|].
  eapply Forall_impl; [|apply on_message_payload_timestamp].
  intros p ->. discriminate.
Qed.

(** ** [JSON.parse] *)

Lemma cons_char_lift : forall c o1 o2 x,
  (forall y, o1 = Some y -> o2 = Some y) ->
  JsonParse.cons_char c o1 = Some x -> JsonParse.cons_char c o2 = Some x.
Proof.
  intros c [y|] o2 x Hlift H; [|discriminate].
  rewrite (Hlift y eq_refl). exact H.
Qed.

(** A string literal read without meeting a wide escape reads the same
    when wide escapes are let through. *)
Lemma p_chars_wide : forall s x,
  JsonParse.p_chars false s = Some x -> JsonParse.p_chars true s = Some x.
Proof.
  fix IH 1. intros [|c r] x; [discriminate|]. cbn [JsonParse.p_chars].
  repeat match goal with
  | |- JsonParse.cons_char _ _ = _ -> JsonParse.cons_char _ _ = _ =>
      apply cons_char_lift; intros ?; apply IH
  | |- (if ?b then _ else _) = _ -> _ => destruct b
  | |- match ?y with _ => _ end = _ -> _ => destruct y
  end; first [intros H; exact H | intros H; discriminate H].
Qed.

Lemma p_value_wide : forall n,
  (forall s x, JsonParse.p_value false n s = Some x -> JsonParse.p_value true n s = Some x)
  /\ (forall s acc x, JsonParse.p_members false n s acc = Some x ->
                      JsonParse.p_members true n s acc = Some x)
  /\ (forall s acc x, JsonParse.p_elements false n s acc = Some x ->
                      JsonParse.p_elements true n s acc = Some x).
Proof.
  induction n as [|n [IHv [IHm IHe]]]; [repeat split; discriminate|].
  split; [intros s x|split; intros s acc x];
    cbn [JsonParse.p_value JsonParse.p_members JsonParse.p_elements];
    repeat match goal with
    | |- JsonParse.p_value false ?n ?s = _ -> _ => apply IHv
    | |- JsonParse.p_members false ?n ?s ?a = _ -> _ => apply IHm
    | |- JsonParse.p_elements false ?n ?s ?a = _ -> _ => apply IHe
    | |- match JsonParse.p_chars false ?r with _ => _ end = _ -> _ =>
        let E := fresh "E" in
        destruct (JsonParse.p_chars false r) as [y|] eqn:E;
        [rewrite (p_chars_wide r y E)|discriminate]
    | |- match JsonParse.p_value false ?n ?r with _ => _ end = _ -> _ =>
        let E := fresh "E" in
        destruct (JsonParse.p_value false n r) as [y|] eqn:E;
        [rewrite (IHv r y E)|discriminate]
    | |- (if ?b then _ else _) = _ -> _ => destruct b
    | |- match ?y with _ => _ end = _ -> _ => destruct y
    end; first [intros H; exact H | intros H; discriminate H].
Qed.

(** A text [JSON_parse] reads is a JSON text. *)
Lemma JSON_parse_valid : forall s v, JSON_parse s = Some v -> JSON_valid s = true.
Proof.
  intros s v H. unfold JSON_parse, JSON_valid, JsonParse.parse_text in *.
  destruct (JsonParse.p_value false (2 * String.length s + 2) s) as [[v' rest]|] eqn:E;
    [|discriminate].
  rewrite (proj1 (p_value_wide _) _ _ E).
  destruct (String.eqb (JsonParse.skip_ws rest) ""); [reflexivity|discriminate].
Qed.

(** ** The request handler *)

Lemma server_handler_post_send : forall token ready now send jerr url body,
  pathname url = Some (Some "/send"%string) ->
  server_handler token ready now send jerr (mkRequest "POST" url (Some ("Bearer " ++ token)%string) body)
  = cors_headers ++ ReadBody :: on_send_end send jerr body.
Proof.
  intros token ready now send jerr url body Hpath.
  unfold server_handler. cbn [req_method req_authorization req_url req_body].
  rewrite String.eqb_refl, Hpath. reflexivity.
Qed.

(** C5: a request other than [OPTIONS] without the exact header
    [Authorization: Bearer <token>] gets the CORS headers, then 401 with
    [{error: "Unauthorized"}] and nothing else, whatever its path and
    body: the body is not read, no route is taken and nothing is sent. *)
Theorem server_handler_unauthorized : forall token ready now send jerr req,
  req_method req <> "OPTIONS"%string ->
  req_authorization req <> Some ("Bearer " ++ token)%string ->
  server_handler token ready now send jerr req
  = cors_headers ++ json_reply 401 [("error", JStr "Unauthorized")].
Proof.
  intros token ready now send jerr [meth url auth body] Hm Ha.
  cbn [req_method req_authorization] in Hm, Ha.
  unfold server_handler. cbn [req_method req_authorization].
  rewrite (proj2 (String.eqb_neq _ _) Hm).
  destruct auth as [h|]; [|reflexivity].
  assert (Hh : String.eqb h ("Bearer " ++ token) = false)
    by (apply String.eqb_neq; congruence).
  rewrite Hh, orb_true_r. reflexivity.
Qed.

Lemma server_handler_unauthorized_witness :
  server_handler example_token true "2023-11-14T22:13:20.000Z" example_send example_json_error
    (mkRequest "POST" "/send" (Some "Bearer wrong") (squote "{'to':'1555','message':'hi'}"))
  = cors_headers ++ json_reply 401 [("error", JStr "Unauthorized")].
Proof.
  apply server_handler_unauthorized; discriminate.
Defined.

(** C4, counterexample: an authenticated [POST /send] whose body is the
    malformed JSON text [{] is answered with status 500. *)
Lemma malformed_body_gets_500 :
  response_status (server_handler example_token true "2023-11-14T22:13:20.000Z"
                     example_send example_json_error (authed_post "/send" "{")) = Some 500.
Proof. vm_compute. reflexivity. Qed.

(** C4, as the code does it: an authenticated [POST /send] whose body
    [JSON.parse] rejects is answered, after the body is read, with 500
    and [{error: "Failed to send message", details: <the message of the
    SyntaxError>}]; nothing is sent and the request is answered. *)
Theorem malformed_body_reply : forall token ready now send jerr url body,
  pathname url = Some (Some "/send"%string) ->
  JSON_valid body = false ->
  server_handler token ready now send jerr
    (mkRequest "POST" url (Some ("Bearer " ++ token)%string) body)
  = cors_headers ++ ReadBody :: fail_500 (jerr body).
Proof.
  intros token ready now send jerr url body Hpath Hvalid.
  rewrite server_handler_post_send by exact Hpath.
  unfold on_send_end. destruct (JSON_parse body) as [v|] eqn:Hparse.
  - rewrite (JSON_parse_valid body v Hparse) in Hvalid. discriminate.
  - rewrite Hvalid. reflexivity.
Qed.

Lemma malformed_body_reply_witness :
  JSON_valid "{" = false
  /\ server_handler example_token true "2023-11-14T22:13:20.000Z" example_send example_json_error
       (authed_post "/send?x=1" "{")
     = cors_headers ++ ReadBody
       :: fail_500 "Expected property name or '}' in JSON at position 1".
Proof.
  split; [vm_compute; reflexivity|].
  apply (malformed_body_reply example_token true "2023-11-14T22:13:20.000Z" example_send
           example_json_error "/send?x=1" "{"); vm_compute; reflexivity.
Defined.

(** ** Sends made by the [POST /send] callback *)

Lemma sends_app : forall e1 e2, sends (e1 ++ e2) = sends e1 ++ sends e2.
Proof. induction e1 as [|e e1 IH]; intros; [reflexivity|destruct e; cbn; rewrite ?IH; reflexivity]. Qed.

Lemma sends_send_and_reply : forall send r c,
  sends (send_and_reply send r c) = [(r, c)].
Proof. intros send r c. unfold send_and_reply. cbn. destruct (send r c); reflexivity. Qed.

Lemma format_phone_spec : forall s,
  ((is_substring "@c.us" s \/ is_substring "@g.us" s) -> format_phone s = s)
  /\ (~ is_substring "@c.us" s -> ~ is_substring "@g.us" s -> format_phone s = (s ++ "@c.us")%string).
Proof.
  intros s. unfold format_phone. rewrite <- !includes_spec.
  destruct (includes s "@c.us"), (includes s "@g.us"); cbn;
    split; intros; try reflexivity; intuition discriminate.
Qed.

Ltac sends_cases H :=
  repeat match type of H with
  | In _ (sends (json_reply _ _)) => cbn in H; contradiction
  | In _ (sends (fail_500 _)) => cbn in H; contradiction
  | In _ (sends [OutOfModel _]) => cbn in H; contradiction
  | In _ (sends (send_and_reply _ _ _)) =>
      rewrite sends_send_and_reply in H; destruct H as [H|[]]
  | In _ (sends (if ?b then _ else _)) => destruct b
  | In _ (sends (match ?x with _ => _ end)) => destruct x
  end.

(** Every [client.sendMessage] call of the callback has the formatted
    string recipient. *)
Lemma on_send_end_recipient : forall send jerr body data s r c,
  JSON_parse body = Some data -> js_get data "to" = Some (JStr s) ->
  In (r, c) (sends (on_send_end send jerr body)) -> r = JStr (format_phone s).
Proof.
  intros send jerr body data s r c Hparse Hto Hin.
  unfold on_send_end in Hin. rewrite Hparse in Hin.
  destruct data as [| | | | |o]; cbn [js_get] in Hto; try discriminate.
  cbv beta iota zeta delta [js_get] in Hin. rewrite Hto in Hin. cbv beta iota delta [phone_number] in Hin.
  sends_cases Hin; congruence.
Qed.

(** C6, counterexample: [to = "120363@g.us.old"] ends with neither
    recognised suffix, yet it reaches [client.sendMessage] unchanged,
    without [@c.us] appended. *)
Lemma recipient_without_suffix_unchanged :
  ends_with "120363@g.us.old" "@c.us" = false
  /\ ends_with "120363@g.us.old" "@g.us" = false
  /\ sends (server_handler example_token true "2023-11-14T22:13:20.000Z" example_send example_json_error
              (authed_post "/send" (squote "{'to':'120363@g.us.old','message':'hi'}")))
     = [(JStr "120363@g.us.old", CText (Some (JStr "hi")))].
Proof. vm_compute. repeat split. Qed.

(** C6, as the code does it: when [to] is a string, every
    [client.sendMessage] call of an authenticated [POST /send] gets [to]
    unchanged if [@c.us] or [@g.us] occurs anywhere in it, and [to]
    followed by [@c.us] otherwise. *)
Theorem send_recipient_normalized : forall token ready now send jerr url body data s,
  pathname url = Some (Some "/send"%string) ->
  JSON_parse body = Some data ->
  js_get data "to" = Some (JStr s) ->
  forall r c,
  In (r, c) (sends (server_handler token ready now send jerr
                      (mkRequest "POST" url (Some ("Bearer " ++ token)%string) body))) ->
  ((is_substring "@c.us" s \/ is_substring "@g.us" s) -> r = JStr s)
  /\ (~ is_substring "@c.us" s -> ~ is_substring "@g.us" s -> r = JStr (s ++ "@c.us")).
Proof.
  intros token ready now send jerr url body data s Hpath Hparse Hto r c Hin.
  rewrite server_handler_post_send in Hin by exact Hpath.
  rewrite sends_app in Hin. cbn [sends cors_headers app] in Hin.
  rewrite (on_send_end_recipient send jerr body data s r c Hparse Hto Hin).
  destruct (format_phone_spec s) as [H1 H2].
  split; intros; f_equal; auto.
Qed.

Lemma send_recipient_normalized_witness :
  In (JStr "15551234567@c.us", CText (Some (JStr "hi")))
     (sends (server_handler example_token true "2023-11-14T22:13:20.000Z" example_send example_json_error
               (authed_post "/send" (squote "{'to':'15551234567','message':'hi'}"))))
  /\ ((is_substring "@c.us" "15551234567" \/ is_substring "@g.us" "15551234567") ->
      JStr "15551234567@c.us" = JStr "15551234567")
  /\ (~ is_substring "@c.us" "15551234567" -> ~ is_substring "@g.us" "15551234567" ->
      JStr "15551234567@c.us" = JStr ("15551234567" ++ "@c.us")).
Proof.
  assert (Hin : In (JStr "15551234567@c.us", CText (Some (JStr "hi")))
     (sends (server_handler example_token true "2023-11-14T22:13:20.000Z" example_send example_json_error
               (authed_post "/send" (squote "{'to':'15551234567','message':'hi'}")))))
    by (vm_compute; left; reflexivity).
  split; [exact Hin|].
  exact (send_recipient_normalized example_token true "2023-11-14T22:13:20.000Z"
           example_send example_json_error "/send" (squote "{'to':'15551234567','message':'hi'}")
           (JObj [("to", JStr "15551234567"); ("message", JStr "hi")]) "15551234567"
           eq_refl eq_refl eq_refl _ _ Hin).
Defined.

(** ** The required-field and location checks *)

(** A falsy [latitude] or [longitude] in a location request that passed
    the required-field check is answered 400 before any send. *)
Lemma on_send_end_location_falsy : forall send jerr body data s,
  JSON_parse body = Some data ->
  js_get data "to" = Some (JStr s) -> s <> ""%string ->
  truthy (js_get data "message") = true ->
  js_get data "type" = Some (JStr "location") ->
  truthy (js_get data "latitude") = false \/ truthy (js_get data "longitude") = false ->
  on_send_end send jerr body = location_reply.
Proof.
  intros send jerr body data s Hparse Hto Hs Hmsg Htype Hcoord.
  unfold on_send_end. rewrite Hparse.
  destruct data as [| | | | |o]; cbn [js_get] in *; try discriminate.
  cbv beta iota zeta delta [js_get].
  rewrite Hto, Hmsg, Htype. cbv beta iota delta [phone_number].
  cbn [truthy negb orb]. rewrite (proj2 (String.eqb_neq _ _) Hs). cbn [negb orb].
  cbn [String.eqb Ascii.eqb Bool.eqb].
  destruct Hcoord as [H|H]; rewrite H; cbn [negb orb]; [reflexivity|].
  rewrite orb_true_r. reflexivity.
Qed.

(** An empty-string [to] or [message] is answered 400 before any send. *)
Lemma on_send_end_empty_field : forall send jerr body data,
  JSON_parse body = Some data ->
  js_get data "to" = Some (JStr "") \/ js_get data "message" = Some (JStr "") ->
  on_send_end send jerr body = missing_fields_reply.
Proof.
  intros send jerr body data Hparse Hempty.
  unfold on_send_end. rewrite Hparse.
  destruct data as [| | | | |o]; cbn [js_get] in *;
    try (destruct Hempty; discriminate).
  cbv beta iota zeta delta [js_get].
  destruct Hempty as [H|H]; rewrite H; cbn [truthy negb orb String.eqb];
    [reflexivity|].
  rewrite orb_true_r. reflexivity.
Qed.

(** C8, counterexample: a location request without [latitude] that also
    lacks [to] and [message] is answered 400 with the required-fields
    error, not the location error. *)
Lemma location_without_to_gets_missing_fields :
  server_handler example_token true "2023-11-14T22:13:20.000Z" example_send example_json_error
    (authed_post "/send" (squote "{'type':'location','longitude':35.2}"))
  = cors_headers ++ ReadBody :: missing_fields_reply.
Proof. vm_compute. reflexivity. Qed.

(** C8, as the code does it: an authenticated [POST /send] whose [to] is
    a non-empty string, whose [message] is present (truthy) and whose
    [type] is ["location"], but which lacks [latitude] or [longitude], is
    answered 400 with [{error: "Location requires latitude and
    longitude"}] and nothing is sent. *)
Theorem location_missing_coordinate : forall token ready now send jerr url body data s,
  pathname url = Some (Some "/send"%string) ->
  JSON_parse body = Some data ->
  js_get data "to" = Some (JStr s) -> s <> ""%string ->
  truthy (js_get data "message") = true ->
  js_get data "type" = Some (JStr "location") ->
  js_get data "latitude" = None \/ js_get data "longitude" = None ->
  server_handler token ready now send jerr (mkRequest "POST" url (Some ("Bearer " ++ token)%string) body)
  = cors_headers ++ ReadBody :: location_reply.
Proof.
  intros token ready now send jerr url body data s Hpath Hparse Hto Hs Hmsg Htype Hmiss.
  rewrite server_handler_post_send by exact Hpath.
  rewrite (on_send_end_location_falsy send jerr body data s); auto.
  destruct Hmiss as [H|H]; rewrite H; auto.
Qed.

Lemma location_missing_coordinate_witness :
  server_handler example_token true "2023-11-14T22:13:20.000Z" example_send example_json_error
    (authed_post "/send"
       (squote "{'to':'15551234567','message':'here','type':'location','longitude':35.2}"))
  = cors_headers ++ ReadBody :: location_reply.
Proof.
  apply (location_missing_coordinate example_token true "2023-11-14T22:13:20.000Z"
           example_send example_json_error "/send"
           (squote "{'to':'15551234567','message':'here','type':'location','longitude':35.2}")
           (JObj [("to", JStr "15551234567"); ("message", JStr "here");
                  ("type", JStr "location"); ("longitude", JNum 352 (-1))])
           "15551234567").
  all: first [reflexivity | discriminate | (left; reflexivity)].
Defined.

(** C10, counterexample: a location request with [latitude = 0] but no
    [to] gets the required-fields error, not the location error. *)
Lemma zero_latitude_without_to_gets_missing_fields :
  server_handler example_token true "2023-11-14T22:13:20.000Z" example_send example_json_error
    (authed_post "/send"
       (squote "{'message':'here','type':'location','latitude':0,'longitude':35.2}"))
  = cors_headers ++ ReadBody :: missing_fields_reply.
Proof. vm_compute. reflexivity. Qed.

(** C10, as the code does it: presence is truthiness.  An authenticated
    [POST /send] whose [to] or [message] is the empty string is answered
    400 with the required-fields error; a location request whose [to] is
    a non-empty string and whose [message] is truthy, with [latitude] or
    [longitude] equal to 0, is answered 400 with the location error; in
    both cases nothing is sent. *)
Theorem presence_is_truthiness :
  (forall token ready now send jerr url body data,
     pathname url = Some (Some "/send"%string) ->
     JSON_parse body = Some data ->
     js_get data "to" = Some (JStr "") \/ js_get data "message" = Some (JStr "") ->
     server_handler token ready now send jerr
       (mkRequest "POST" url (Some ("Bearer " ++ token)%string) body)
     = cors_headers ++ ReadBody :: missing_fields_reply)
  /\ (forall token ready now send jerr url body data s e,
     pathname url = Some (Some "/send"%string) ->
     JSON_parse body = Some data ->
     js_get data "to" = Some (JStr s) -> s <> ""%string ->
     truthy (js_get data "message") = true ->
     js_get data "type" = Some (JStr "location") ->
     js_get data "latitude" = Some (JNum 0 e) \/ js_get data "longitude" = Some (JNum 0 e) ->
     server_handler token ready now send jerr
       (mkRequest "POST" url (Some ("Bearer " ++ token)%string) body)
     = cors_headers ++ ReadBody :: location_reply).
Proof.
  split.
  - intros token ready now send jerr url body data Hpath Hparse Hempty.
    rewrite server_handler_post_send by exact Hpath.
    rewrite (on_send_end_empty_field send jerr body data); auto.
  - intros token ready now send jerr url body data s e Hpath Hparse Hto Hs Hmsg Htype Hzero.
    rewrite server_handler_post_send by exact Hpath.
    rewrite (on_send_end_location_falsy send jerr body data s); auto.
    destruct Hzero as [H|H]; rewrite H; auto.
Qed.

Lemma presence_is_truthiness_witness :
  server_handler example_token true "2023-11-14T22:13:20.000Z" example_send example_json_error
    (authed_post "/send" (squote "{'to':'','message':'hi'}"))
  = cors_headers ++ ReadBody :: missing_fields_reply
  /\ server_handler example_token true "2023-11-14T22:13:20.000Z" example_send example_json_error
       (authed_post "/send"
          (squote "{'to':'15551234567','message':'here','type':'location','latitude':0,'longitude':35.2}"))
  = cors_headers ++ ReadBody :: location_reply.
Proof.
  split.
  - apply (proj1 presence_is_truthiness example_token true "2023-11-14T22:13:20.000Z"
             example_send example_json_error "/send" (squote "{'to':'','message':'hi'}")
             (JObj [("to", JStr ""); ("message", JStr "hi")])).
    all: first [reflexivity | (left; reflexivity)].
  - apply (proj2 presence_is_truthiness example_token true "2023-11-14T22:13:20.000Z"
             example_send example_json_error "/send"
             (squote "{'to':'15551234567','message':'here','type':'location','latitude':0,'longitude':35.2}")
             (JObj [("to", JStr "15551234567"); ("message", JStr "here");
                    ("type", JStr "location"); ("latitude", JNum 0 0);
                    ("longitude", JNum 352 (-1))])
             "15551234567" 0).
    all: first [reflexivity | discriminate | (left; reflexivity)].
Defined.

(** * Further properties of the code *)

(** ** The forwarder, for any sequence of fetch outcomes *)

Section ForwarderGeneral.
Variables (cfg : api_config) (sender message : string)
          (ad : list (string * json)) (now : Z -> string) (fetch : Z -> outcome).

Let loop := attempts cfg sender message ad now fetch.

Lemma attempts_step_success : forall f a,
  a <= retryAttempts cfg -> failing (fetch a) = false ->
  exists logs, skeleton logs = [SFetch] /\ loop (S f) a = (logs, true).
Proof.
  intros f a Ha Hf.
  destruct (fetch a) as [st t|m] eqn:E; cbn [failing] in Hf; [|discriminate].
  apply negb_false_iff in Hf.
  exact (attempts_step_ok cfg sender message ad now fetch f a st t Ha E Hf).
Qed.

Lemma attempts_result : forall f a,
  1 <= a -> Z.of_nat f = retryAttempts cfg - a + 1 ->
  (snd (loop f a) = true <->
   exists k, a <= k <= retryAttempts cfg /\ failing (fetch k) = false).
Proof.
  induction f as [|f IH]; intros a Ha Hf.
  - cbn. split; [discriminate|intros [k [Hk _]]; lia].
  - destruct (failing (fetch a)) eqn:Efa.
    + destruct (attempts_step_fail cfg sender message ad now fetch f a)
        as [logs [_ Heq]]; [lia|exact Efa|].
      unfold loop. rewrite Heq. fold loop.
      destruct (Z.eqb_spec a (retryAttempts cfg)) as [Hlast|Hlast].
      * cbn. split; [discriminate|].
        intros [k [Hk Hok]]. replace k with a in Hok by lia. congruence.
      * specialize (IH (a + 1) ltac:(lia) ltac:(lia)).
        destruct (loop f (a + 1)) as [rest r]. cbn [snd] in IH |- *.
        rewrite IH. split; intros [k [Hk Hok]]; exists k; split; try assumption; try lia.
        destruct (Z.eq_dec k a) as [->|]; [congruence|lia].
    + destruct (attempts_step_success f a) as [logs [_ Heq]]; [lia|exact Efa|].
      rewrite Heq. cbn. split; [intros _; exists a; split; [lia|exact Efa]|reflexivity].
Qed.

Lemma attempts_shape : forall f a,
  1 <= a -> Z.of_nat f = retryAttempts cfg - a + 1 ->
  exists n, (n <= f)%nat /\ (a <= retryAttempts cfg -> (1 <= n)%nat)
            /\ skeleton (fst (loop f a)) = attempts_pattern n (retryDelay cfg).
Proof.
  induction f as [|f IH]; intros a Ha Hf.
  - exists O. split; [lia|split; [lia|reflexivity]].
  - destruct (failing (fetch a)) eqn:Efa.
    + destruct (attempts_step_fail cfg sender message ad now fetch f a)
        as [logs [Hlogs Heq]]; [lia|exact Efa|].
      unfold loop. rewrite Heq. fold loop.
      destruct (Z.eqb_spec a (retryAttempts cfg)) as [Hlast|Hlast].
      * exists 1%nat. split; [lia|split; [lia|exact Hlogs]].
      * destruct (IH (a + 1) ltac:(lia) ltac:(lia)) as [n [Hn [Hn1 Hsk]]].
        destruct (loop f (a + 1)) as [rest r]. cbn [fst] in Hsk |- *.
        exists (S n). split; [lia|split; [lia|]].
        rewrite !skeleton_app, Hlogs, skeleton_wait, Hsk.
        destruct n; [lia|reflexivity].
    + destruct (attempts_step_success f a) as [logs [Hlogs Heq]]; [lia|exact Efa|].
      rewrite Heq. exists 1%nat. split; [lia|split; [lia|exact Hlogs]].
Qed.

End ForwarderGeneral.

(** X1: the forwarder returns [true] exactly when one of the attempts
    [1 .. retryAttempts] gets a 2xx response; it makes no fetch at all
    exactly when [retryAttempts <= 0], so that it then returns [false]
    without trying. *)
Theorem forward_result_iff : forall cfg sender message ad now fetch,
  (snd (forwardMessageToAPI cfg sender message ad now fetch) = true <->
   exists k, 1 <= k <= retryAttempts cfg /\ failing (fetch k) = false)
  /\ (fetch_count (skeleton (fst (forwardMessageToAPI cfg sender message ad now fetch))) = O
      <-> retryAttempts cfg <= 0).
Proof.
  intros cfg sender message ad now fetch. unfold forwardMessageToAPI.
  destruct (Z_le_gt_dec 1 (retryAttempts cfg)) as [HN|HN].
  - split; [apply attempts_result; lia|].
    destruct (attempts_shape cfg sender message ad now fetch
                (Z.to_nat (retryAttempts cfg)) 1) as [n [_ [Hn1 Hs]]]; [lia|lia|].
    rewrite Hs, (proj1 (attempts_pattern_counts n (retryDelay cfg))).
    specialize (Hn1 HN). split; intros H; lia.
  - replace (Z.to_nat (retryAttempts cfg)) with O by lia. cbn.
    split; [split; [discriminate|intros [k [Hk _]]; lia]|split; intros; [lia|reflexivity]].
Qed.

(** X2: whatever the outcomes, the forwarder makes at most
    [retryAttempts] fetches, and its fetches and sleeps alternate: a sleep
    of [retryDelay] between consecutive fetches, none before the first or
    after the last. *)
Theorem forward_attempts_shape : forall cfg sender message ad now fetch,
  exists n, (n <= Z.to_nat (retryAttempts cfg))%nat
  /\ skeleton (fst (forwardMessageToAPI cfg sender message ad now fetch))
     = attempts_pattern n (retryDelay cfg).
Proof.
  intros cfg sender message ad now fetch. unfold forwardMessageToAPI.
  destruct (Z_le_gt_dec 1 (retryAttempts cfg)) as [HN|HN].
  - destruct (attempts_shape cfg sender message ad now fetch
                (Z.to_nat (retryAttempts cfg)) 1) as [n [Hn [_ Hs]]]; [lia|lia|].
    exists n. auto.
  - replace (Z.to_nat (retryAttempts cfg)) with O by lia.
    exists O. split; reflexivity.
Qed.

(** ** Objects *)

Lemma obj_get_set_same {A : Type} : forall (k : string) (v : A) o,
  obj_get (obj_set k v o) k = Some v.
Proof.
  intros k v o. induction o as [|[k' v'] o IH]; cbn.
  - rewrite String.eqb_refl. reflexivity.
  - destruct (String.eqb k k') eqn:E; cbn; [rewrite String.eqb_refl|rewrite E]; auto.
Qed.

Lemma obj_get_set_other {A : Type} : forall (k k2 : string) (v : A) o,
  k2 <> k -> obj_get (obj_set k v o) k2 = obj_get o k2.
Proof.
  intros k k2 v o Hk. apply String.eqb_neq in Hk.
  induction o as [|[k' v'] o IH]; cbn.
  - rewrite Hk. reflexivity.
  - destruct (String.eqb k k') eqn:E; cbn.
    + apply String.eqb_eq in E. subst k'. rewrite Hk. reflexivity.
    + rewrite IH. reflexivity.
Qed.

(** ** Where the forwarder's requests go *)

Lemma no_fetch_forall : forall url hdrs t tr,
  fetched_payloads tr = [] -> Forall (fetch_to url hdrs t) tr.
Proof.
  intros url hdrs t tr. induction tr as [|e tr IH]; intros H; [constructor|].
  destruct e; cbn in H; try discriminate; constructor; cbn; auto.
Qed.

Section Targets.
Variables (cfg : api_config) (sender message : string)
          (ad : list (string * json)) (now : Z -> string) (fetch : Z -> outcome).

Lemma attempts_fetch_to : forall f a,
  Forall (fetch_to (endpoint cfg) (request_headers cfg) (timeout cfg))
         (fst (attempts cfg sender message ad now fetch f a)).
Proof.
  induction f as [|f IH]; intros a; [constructor|].
  cbn [attempts].
  destruct (a <=? retryAttempts cfg); [|constructor].
  specialize (IH (a + 1)).
  destruct (attempts cfg sender message ad now fetch f (a + 1)) as [rest r].
  cbn [fst] in IH.
  destruct (fetch a) as [st [t|m]|m];
    [destruct (response_ok st)|destruct (response_ok st)|];
    try (destruct (a =? retryAttempts cfg));
    cbn [fst];
    repeat match goal with
    | |- Forall _ (_ ++ _) => apply Forall_app; split
    | |- Forall _ (debug_request_logs _ _ _ _ _ _) =>
        apply no_fetch_forall, payloads_debug_request_logs
    | |- Forall _ (success_logs _ _) => apply no_fetch_forall, payloads_success_logs
    | |- Forall _ (http_error_logs _ _ _) => apply no_fetch_forall, payloads_http_error_logs
    | |- Forall _ (catch_logs _ _ _) => apply no_fetch_forall, payloads_catch_logs
    | |- Forall _ (wait_before_retry _) => apply no_fetch_forall, payloads_wait
    | |- Forall _ [] => constructor
    | |- Forall _ (_ :: _) => constructor; [cbn; repeat split|]
    end; assumption.
Qed.

End Targets.

Lemma request_headers_set : forall cfg,
  request_headers cfg = obj_set "Authorization" ("Bearer " ++ apiKey cfg)%string (headers cfg).
Proof. reflexivity. Qed.

(** X3: every request the forwarder makes goes to [apiConfig.endpoint] with
    [apiConfig.timeout]; its headers object has [Authorization] set to
    ["Bearer " ++ apiKey], replacing a configured one, and every other
    header exactly as configured. *)
Theorem forward_request_target : forall cfg sender message ad now fetch u h p t,
  In (Fetch u h p t) (fst (forwardMessageToAPI cfg sender message ad now fetch)) ->
  u = endpoint cfg /\ t = timeout cfg
  /\ obj_get h "Authorization" = Some ("Bearer " ++ apiKey cfg)%string
  /\ (forall k, k <> "Authorization"%string -> obj_get h k = obj_get (headers cfg) k).
Proof.
  intros cfg sender message ad now fetch u h p t Hin.
  unfold forwardMessageToAPI in Hin.
  apply (proj1 (Forall_forall _ _) (attempts_fetch_to cfg sender message ad now fetch _ 1))
    in Hin.
  cbn [fetch_to] in Hin. destruct Hin as [-> [-> ->]].
  rewrite request_headers_set.
  split; [reflexivity|split; [reflexivity|split]].
  - apply obj_get_set_same.
  - intros k Hk. apply obj_get_set_other. exact Hk.
Qed.

Lemma forward_request_target_witness :
  In (Fetch "https://api.example.com/webhook"
            [("Content-Type", "application/json"); ("Authorization", "Bearer sk-test-1234")]
            (payload "15551234567@c.us" "hello" (additional_json example_additional)
                     example_now 1) 10000)
     (fst (forwardMessageToAPI example_config "15551234567@c.us" "hello"
             (additional_json example_additional) example_now example_fetch))
  /\ obj_get [("Content-Type", "application/json"); ("Authorization", "Bearer sk-test-1234")]
             "Authorization" = Some ("Bearer " ++ apiKey example_config)%string.
Proof.
  assert (Hin : In (Fetch "https://api.example.com/webhook"
            [("Content-Type", "application/json"); ("Authorization", "Bearer sk-test-1234")]
            (payload "15551234567@c.us" "hello" (additional_json example_additional)
                     example_now 1) 10000)
     (fst (forwardMessageToAPI example_config "15551234567@c.us" "hello"
             (additional_json example_additional) example_now example_fetch))).
  { vm_compute. left. reflexivity. }
  split; [exact Hin|].
  exact (proj1 (proj2 (proj2 (forward_request_target _ _ _ _ _ _ _ _ _ _ Hin)))).
Defined.

(** ** What the ['message'] handler posts *)

(** X4: every body the ['message'] handler posts carries the message's
    sender, text, id, type, media and own-message flags, the chat type
    (["group"] or ["private"]) and the chat name, ["Unknown"] when the
    name is empty. *)
Theorem on_message_payload_fields : forall cfg msg chat now fetch p,
  In p (fetched_payloads (fst (on_message cfg msg chat now fetch))) ->
  js_get p "sender" = Some (JStr (msg_from msg))
  /\ js_get p "message" = Some (JStr (msg_body msg))
  /\ js_get p "messageId" = Some (JStr (msg_id_serialized msg))
  /\ js_get p "chatType" = Some (JStr (if chat_isGroup chat then "group" else "private"))
  /\ js_get p "chatName"
     = Some (JStr (if String.eqb (chat_name chat) "" then "Unknown" else chat_name chat))
  /\ js_get p "messageType" = Some (JStr (msg_type msg))
  /\ js_get p "hasMedia" = Some (JBool (msg_hasMedia msg))
  /\ js_get p "isFromMe" = Some (JBool (msg_fromMe msg)).
Proof.
  intros cfg msg chat now fetch p Hin. unfold on_message in Hin.
  destruct (shouldForwardMessage _ _ _ _); [|contradiction].
  unfold forwardMessageToAPI in Hin.
  apply (proj1 (Forall_forall _ _) (attempts_payloads _ _ _ _ _ _ _ _)) in Hin.
  destruct Hin as [i ->].
  repeat split; reflexivity.
Qed.

Lemma on_message_payload_fields_witness :
  In (payload "15551234567@c.us" "hello" (additional_json example_additional) example_now 1)
     (fetched_payloads (fst (on_message example_config example_message example_chat
                                        example_now example_fetch)))
  /\ js_get (payload "15551234567@c.us" "hello" (additional_json example_additional)
                     example_now 1) "chatName"
     = Some (JStr (if String.eqb (chat_name example_chat) "" then "Unknown"
                   else chat_name example_chat)).
Proof.
  assert (Hin : In (payload "15551234567@c.us" "hello" (additional_json example_additional)
                            example_now 1)
     (fetched_payloads (fst (on_message example_config example_message example_chat
                                        example_now example_fetch))))
    by (vm_compute; left; reflexivity).
  split; [exact Hin|].
  exact (proj1 (proj2 (proj2 (proj2 (proj2
           (on_message_payload_fields _ _ _ _ _ _ Hin)))))).
Defined.

(** ** Case in the filter *)

Lemma lower_char_idempotent : forall c, lower_char (lower_char c) = lower_char c.
Proof.
  intros [b0 b1 b2 b3 b4 b5 b6 b7].
  destruct b0, b1, b2, b3, b4, b5, b6, b7; vm_compute; reflexivity.
Qed.

Lemma toLowerCase_idempotent : forall s, toLowerCase (toLowerCase s) = toLowerCase s.
Proof.
  induction s as [|c s IH]; cbn; [reflexivity|].
  rewrite lower_char_idempotent, IH. reflexivity.
Qed.

Lemma map_toLowerCase_length : forall kws,
  List.length (map toLowerCase kws) = List.length kws.
Proof. intros. apply length_map. Qed.

Lemma existsb_lowered_keywords : forall m kws,
  existsb (fun keyword => includes m (toLowerCase keyword)) (map toLowerCase kws)
  = existsb (fun keyword => includes m (toLowerCase keyword)) kws.
Proof.
  intros m kws. induction kws as [|kw kws IH]; cbn; [reflexivity|].
  rewrite toLowerCase_idempotent, IH. reflexivity.
Qed.

(** X5: the filter ignores case in the keyword match: lower-casing the
    message, or every required keyword, never changes its decision. *)
Theorem shouldForwardMessage_case_insensitive : forall cfg sender message ad,
  shouldForwardMessage cfg sender (toLowerCase message) ad
  = shouldForwardMessage cfg sender message ad
  /\ shouldForwardMessage
       (with_requiredKeywords cfg (map toLowerCase (requiredKeywords (cfg_filters cfg))))
       sender message ad
     = shouldForwardMessage cfg sender message ad.
Proof.
  intros cfg sender message ad. split.
  - unfold shouldForwardMessage. rewrite toLowerCase_idempotent. reflexivity.
  - unfold shouldForwardMessage, with_requiredKeywords. cbn [enabled cfg_filters
      skipOwnMessages skipGroupMessages allowedSenders requiredKeywords].
    rewrite map_toLowerCase_length, existsb_lowered_keywords. reflexivity.
Qed.

(** ** Recipient formatting of [POST /send] *)

(** X6: formatting a recipient twice is formatting it once, and a
    formatted recipient always contains [@c.us] or [@g.us]. *)
Theorem format_phone_idempotent : forall s,
  format_phone (format_phone s) = format_phone s
  /\ (is_substring "@c.us" (format_phone s) \/ is_substring "@g.us" (format_phone s)).
Proof.
  intros s.
  assert (Hsuf : includes (s ++ "@c.us") "@c.us" = true).
  { apply includes_spec. exists s, ""%string. reflexivity. }
  unfold format_phone.
  destruct (includes s "@c.us") eqn:E1; destruct (includes s "@g.us") eqn:E2; cbn;
    rewrite ?E1, ?E2, ?Hsuf; cbn; rewrite <- !includes_spec; auto.
Qed.

(** ** Routing of the request handler *)

Lemma plain_path_char_spec : forall c,
  plain_path_char c = true ->
  Ascii.eqb c "?" = false /\ Ascii.eqb c "#" = false /\ Ascii.eqb c "@" = false
  /\ Ascii.eqb c "092" = false /\ escape_char c = String c EmptyString
  /\ ((33 <=? nat_of_ascii c) && (nat_of_ascii c <=? 126))%nat = true.
Proof.
  intros c H.
  destruct c as [[] [] [] [] [] [] [] []]; vm_compute in H; try discriminate H;
    vm_compute; repeat split.
Qed.

Definition all_plain (u : string) : bool := forallb plain_path_char (list_ascii_of_string u).

Lemma all_plain_cons : forall c u,
  all_plain (String c u) = true -> plain_path_char c = true /\ all_plain u = true.
Proof. intros c u H. apply andb_prop in H. exact H. Qed.

Ltac plain_char H :=
  let Hq := fresh in let Hh := fresh in let Ha := fresh in let Hb := fresh in
  let He := fresh in let Hp := fresh in
  destruct (plain_path_char_spec _ H) as [Hq [Hh [Ha [Hb [He Hp]]]]].

Lemma plain_url_app : forall u t,
  all_plain u = true ->
  fix_backslashes (u ++ t) = (u ++ fix_backslashes t)%string
  /\ has_at (u ++ t) = has_at t
  /\ path_part (u ++ t) = (u ++ path_part t)%string
  /\ auto_escape (u ++ t) = (u ++ auto_escape t)%string
  /\ printable (u ++ t) = printable t.
Proof.
  induction u as [|c u IH]; intros t H; [repeat split|].
  apply all_plain_cons in H as [Hc Hu]. plain_char Hc.
  destruct (IH t Hu) as [E1 [E2 [E3 [E4 E5]]]].
  unfold printable in *. cbn [append fix_backslashes has_at path_part auto_escape
    list_ascii_of_string forallb].
  repeat match goal with H : Ascii.eqb _ _ = false |- _ => rewrite H end.
  cbn [orb]. rewrite E1, E2, E3, E4, E5. repeat match goal with H : _ = _ |- _ => rewrite H end.
  repeat split.
Qed.

Lemma plain_url_query : forall c q,
  (Ascii.eqb c "?" || Ascii.eqb c "#")%bool = true ->
  fix_backslashes (String c q) = String c q
  /\ has_at (String c q) = false
  /\ path_part (String c q) = EmptyString
  /\ auto_escape (String c q) = String c (auto_escape q)
  /\ printable (String c q) = printable q.
Proof.
  intros c q Hc.
  apply orb_true_iff in Hc as [Hc|Hc]; apply Ascii.eqb_eq in Hc; subst c; repeat split.
Qed.

Lemma str_app_nil : forall u : string, (u ++ "")%string = u.
Proof. induction u as [|c u IH]; [reflexivity|cbn; rewrite IH; reflexivity]. Qed.

Lemma plain_path_pathname : forall u t,
  plain_path u = true ->
  fix_backslashes t = t -> has_at t = false -> path_part t = EmptyString ->
  path_part (auto_escape t) = EmptyString -> printable t = true ->
  (forall r, t <> String "/" r) ->
  pathname (u ++ t) = Some (Some u).
Proof.
  intros u t Hu Hf Ha Hp Hpe Hpr Hsl.
  unfold plain_path in Hu. apply andb_prop in Hu as [Hu Hall].
  apply andb_prop in Hu as [H1 H2]. fold (all_plain u) in Hall.
  destruct (plain_url_app u t Hall) as [E1 [E2 [E3 [E4 E5]]]].
  destruct (plain_url_app u (auto_escape t) Hall) as [_ [_ [E6 _]]].
  unfold pathname, rest_pathname. rewrite E5, Hpr. cbn [negb].
  rewrite E1, Hf, E2, Ha, E3, Hp, E4, E6, Hpe, str_app_nil.
  destruct u as [|c0 u']; [vm_compute in H1; congruence|].
  assert (c0 = "/"%char) as ->.
  { destruct c0 as [[] [] [] [] [] [] [] []]; vm_compute in H1;
      first [reflexivity | congruence]. }
  assert (Hhp : host_pattern (String "/" u' ++ t) = false).
  { destruct u' as [|c1 u''].
    - destruct t as [|c1 t']; [reflexivity|].
      destruct c1 as [[] [] [] [] [] [] [] []]; try reflexivity;
        exfalso; exact (Hsl t' eq_refl).
    - destruct c1 as [[] [] [] [] [] [] [] []]; try reflexivity;
        destruct u''; vm_compute in H2; congruence. }
  rewrite Hhp.
  destruct (negb (has_hash (String "/" u' ++ t)) && negb false
            && simple_path (String "/" u' ++ t))%bool; reflexivity.
Qed.

(** X7: the handler routes on the path alone: appending a query string or
    a fragment (of printable characters) to a request path that starts
    with a single [/] and holds only characters [url.parse] keeps as they
    are changes nothing in the handling. *)
Theorem server_handler_ignores_query : forall token ready now send jerr m u c q a b,
  plain_path u = true -> printable q = true ->
  (Ascii.eqb c "?" || Ascii.eqb c "#")%bool = true ->
  server_handler token ready now send jerr (mkRequest m (u ++ String c q)%string a b)
  = server_handler token ready now send jerr (mkRequest m u a b).
Proof.
  intros token ready now send jerr m u c q a b Hu Hq Hc.
  destruct (plain_url_query c q Hc) as [F1 [F2 [F3 [F4 F5]]]].
  assert (Hcq : pathname (u ++ String c q) = Some (Some u)).
  { apply plain_path_pathname; auto.
    - rewrite F4. cbn [path_part]. rewrite Hc. reflexivity.
    - rewrite F5. exact Hq.
    - intros r Hr. injection Hr as -> _. discriminate Hc. }
  assert (Hu0 : pathname u = Some (Some u)).
  { rewrite <- (str_app_nil u) at 1. apply plain_path_pathname; auto; try reflexivity.
    intros r Hr. discriminate Hr. }
  unfold server_handler. cbn [req_url req_method req_authorization req_body].
  rewrite Hcq, Hu0. reflexivity.
Qed.

Lemma server_handler_ignores_query_witness :
  server_handler example_token true "2023-11-14T22:13:20.000Z" example_send example_json_error
    (authed_post "/send?retry=1" (squote "{'to':'15551234567','message':'hi'}"))
  = server_handler example_token true "2023-11-14T22:13:20.000Z" example_send example_json_error
      (authed_post "/send" (squote "{'to':'15551234567','message':'hi'}")).
Proof.
  exact (server_handler_ignores_query example_token true "2023-11-14T22:13:20.000Z"
           example_send example_json_error "POST" "/send" "?" "retry=1"
           (Some ("Bearer " ++ example_token)%string)
           (squote "{'to':'15551234567','message':'hi'}") eq_refl eq_refl eq_refl).
Defined.

(** ** Every request is answered once *)

Lemma replies_once_spec : forall effs,
  replies_once effs = true ->
  exists pre st h b, effs = pre ++ [WriteHead st h; EndBody b]
                     /\ Forall (fun e => is_reply_part e = false) pre.
Proof.
  induction effs as [|e effs IH]; intros H; [discriminate|].
  destruct e as [n v|st h|b| |to c|l|w].
  2: { destruct effs as [|[] [|e3 effs]]; cbn in H; try discriminate.
       eexists [], _, _, _. split; [reflexivity|constructor]. }
  2: { cbn in H. discriminate. }
  all: cbn [replies_once is_reply_part negb andb] in H;
       destruct (IH H) as [pre [st [h [b [-> Hpre]]]]];
       eexists (_ :: pre), st, h, b; split; [reflexivity|constructor; [reflexivity|exact Hpre]].
Qed.

Ltac branch_cases :=
  repeat match goal with
  | |- context [match ?x with _ => _ end] => destruct x
  end.

Lemma on_send_end_replies_once : forall send jerr body,
  replies_once (on_send_end send jerr body) = true
  \/ exists w, on_send_end send jerr body = [OutOfModel w].
Proof.
  intros send jerr body. unfold on_send_end, send_and_reply.
  branch_cases; first [left; reflexivity | right; eexists; reflexivity].
Qed.

Ltac once_spec :=
  match goal with
  | |- exists pre st h b, ?E = _ /\ _ => apply (replies_once_spec E)
  end.

(** X8: the handler answers every request exactly once: unless it takes
    a path this model does not follow ([OutOfModel]), its effects end with
    one [res.writeHead] followed by one [res.end], and neither occurs
    earlier. *)
Theorem server_handler_replies_once : forall token ready now send jerr req,
  (exists w, In (OutOfModel w) (server_handler token ready now send jerr req))
  \/ exists pre st h b,
       server_handler token ready now send jerr req = pre ++ [WriteHead st h; EndBody b]
       /\ Forall (fun e => is_reply_part e = false) pre.
Proof.
  intros token ready now send jerr req. unfold server_handler. cbv zeta.
  destruct (String.eqb (req_method req) "OPTIONS");
    [right; once_spec; reflexivity|].
  destruct (req_authorization req) as [h|]; [|right; once_spec; reflexivity].
  destruct (String.eqb h "" || negb (String.eqb h ("Bearer " ++ token)))%bool;
    [right; once_spec; reflexivity|].
  destruct (pathname (req_url req)) as [path|].
  2: { left. exists "url.parse of this request target"%string.
       apply in_or_app. right. left. reflexivity. }
  destruct (String.eqb (req_method req) "POST" && path_is path "/send")%bool.
  - destruct (on_send_end_replies_once send jerr (req_body req)) as [H|[w Hw]].
    + right. once_spec. exact H.
    + left. exists w. rewrite Hw. apply in_or_app. right. right. left. reflexivity.
  - destruct (String.eqb (req_method req) "GET" && path_is path "/status")%bool;
      right; once_spec; reflexivity.
Qed.

(** ** Who can make the client send *)

Lemma on_send_end_sends : forall send jerr body,
  (List.length (sends (on_send_end send jerr body)) <= 1)%nat.
Proof.
  intros send jerr body. unfold on_send_end, send_and_reply.
  branch_cases; cbn; lia.
Qed.

Ltac no_send := cbn; split; [lia|intros Hne; exfalso; apply Hne; reflexivity].

(** X9: unless it takes a path this model does not follow ([OutOfModel]),
    a request makes at most one [client.sendMessage] call, and only an
    authenticated [POST] whose [url.parse] pathname is [/send] makes one. *)
Theorem server_handler_sends_authorized : forall token ready now send jerr req,
  (exists w, In (OutOfModel w) (server_handler token ready now send jerr req))
  \/ ((List.length (sends (server_handler token ready now send jerr req)) <= 1)%nat
      /\ (sends (server_handler token ready now send jerr req) <> [] ->
          req_method req = "POST"%string
          /\ req_authorization req = Some ("Bearer " ++ token)%string
          /\ pathname (req_url req) = Some (Some "/send"%string))).
Proof.
  intros token ready now send jerr req. unfold server_handler. cbv zeta.
  destruct (String.eqb (req_method req) "OPTIONS"); [right; no_send|].
  destruct (req_authorization req) as [h|] eqn:Ea; [|right; no_send].
  destruct (String.eqb h "" || negb (String.eqb h ("Bearer " ++ token)))%bool eqn:Eb;
    [right; no_send|].
  apply orb_false_iff in Eb as [_ Eb]. apply negb_false_iff, String.eqb_eq in Eb.
  subst h.
  destruct (pathname (req_url req)) as [path|] eqn:Eu.
  2: { left. exists "url.parse of this request target"%string.
       apply in_or_app. right. left. reflexivity. }
  right.
  destruct (String.eqb (req_method req) "POST" && path_is path "/send")%bool eqn:Ep.
  - apply andb_true_iff in Ep as [Em Epath]. apply String.eqb_eq in Em.
    destruct path as [p|]; [|discriminate Epath]. apply String.eqb_eq in Epath. subst p.
    rewrite sends_app. cbn [sends cors_headers app].
    split; [apply on_send_end_sends|auto].
  - destruct (String.eqb (req_method req) "GET" && path_is path "/status")%bool; no_send.
Qed.

(** An absolute-form target and an array recipient. *)
Lemma server_handler_sends_authorized_witness :
  sends (server_handler example_token true "2023-11-14T22:13:20.000Z" example_send
           example_json_error
           (authed_post "http://localhost:3000/send"
              (squote "{'to':['15551234567'],'message':'hi'}")))
  = [(JStr "15551234567@c.us", CText (Some (JStr "hi")))]
  /\ pathname "http://localhost:3000/send" = Some (Some "/send"%string).
Proof.
  assert (Hs : sends (server_handler example_token true "2023-11-14T22:13:20.000Z" example_send
           example_json_error
           (authed_post "http://localhost:3000/send"
              (squote "{'to':['15551234567'],'message':'hi'}")))
         = [(JStr "15551234567@c.us", CText (Some (JStr "hi")))])
    by (vm_compute; reflexivity).
  destruct (server_handler_sends_authorized example_token true "2023-11-14T22:13:20.000Z"
              example_send example_json_error
              (authed_post "http://localhost:3000/send"
                 (squote "{'to':['15551234567'],'message':'hi'}")))
    as [[w Hw]|[_ Hauth]].
  - exfalso. vm_compute in Hw.
    repeat (destruct Hw as [Hw|Hw]; [discriminate Hw|]). contradiction.
  - split; [exact Hs|].
    refine (proj2 (proj2 (Hauth _))). rewrite Hs. discriminate.
Defined.

(** ** The [POST /send] body *)

(** X10: an authenticated [POST /send] whose [to] is a non-empty string and
    whose [message] is truthy reaches [client.sendMessage] once, with the
    formatted recipient: with the message itself when [type] is absent or
    ["text"], with a [Location] built from [latitude], [longitude],
    [name] and [address] when [type] is ["location"] and both coordinates
    are truthy.  The reply is 200 with the message id and timestamp the
    client returns, or 500 with the client's error message. *)
Theorem send_request_reaches_client :
  (forall token ready now send jerr url body data s,
     pathname url = Some (Some "/send"%string) ->
     JSON_parse body = Some data ->
     js_get data "to" = Some (JStr s) -> s <> ""%string ->
     truthy (js_get data "message") = true ->
     js_get data "type" = None \/ js_get data "type" = Some (JStr "text") ->
     server_handler token ready now send jerr
       (mkRequest "POST" url (Some ("Bearer " ++ token)%string) body)
     = cors_headers ++ ReadBody
       :: SendMessage (JStr (format_phone s)) (CText (js_get data "message"))
       :: match send (JStr (format_phone s)) (CText (js_get data "message")) with
          | Sent id ts => json_reply 200 [("success", JBool true); ("messageId", JStr id);
                                          ("timestamp", JNum ts 0)]
          | SendFailed m => fail_500 m
          end)
  /\ (forall token ready now send jerr url body data s,
     pathname url = Some (Some "/send"%string) ->
     JSON_parse body = Some data ->
     js_get data "to" = Some (JStr s) -> s <> ""%string ->
     truthy (js_get data "message") = true ->
     js_get data "type" = Some (JStr "location") ->
     truthy (js_get data "latitude") = true -> truthy (js_get data "longitude") = true ->
     let c := CLocation (js_get data "latitude") (js_get data "longitude")
                        (js_get data "name") (js_get data "address") in
     server_handler token ready now send jerr
       (mkRequest "POST" url (Some ("Bearer " ++ token)%string) body)
     = cors_headers ++ ReadBody :: SendMessage (JStr (format_phone s)) c
       :: match send (JStr (format_phone s)) c with
          | Sent id ts => json_reply 200 [("success", JBool true); ("messageId", JStr id);
                                          ("timestamp", JNum ts 0)]
          | SendFailed m => fail_500 m
          end).
Proof.
  split.
  - intros token ready now send jerr url body data s Hpath Hparse Hto Hs Hmsg Htype.
    rewrite server_handler_post_send by exact Hpath. f_equal. f_equal.
    unfold on_send_end. rewrite Hparse.
    destruct data as [| | | | |o]; cbn [js_get] in *; try discriminate.
    cbv beta iota zeta delta [js_get].
    rewrite Hto, Hmsg. cbv beta iota delta [phone_number]. cbn [truthy negb orb].
    rewrite (proj2 (String.eqb_neq _ _) Hs). cbn [negb orb].
    destruct Htype as [H|H]; rewrite H; reflexivity.
  - intros token ready now send jerr url body data s Hpath Hparse Hto Hs Hmsg Htype Hlat Hlng c.
    rewrite server_handler_post_send by exact Hpath. f_equal. f_equal.
    unfold on_send_end. rewrite Hparse.
    destruct data as [| | | | |o]; cbn [js_get] in *; try discriminate.
    cbv beta iota zeta delta [js_get].
    rewrite Hto, Hmsg. cbv beta iota delta [phone_number]. cbn [truthy negb orb].
    rewrite (proj2 (String.eqb_neq _ _) Hs). cbn [negb orb].
    rewrite Htype. cbn [String.eqb Ascii.eqb Bool.eqb].
    rewrite Hlat, Hlng. reflexivity.
Qed.

Lemma send_request_reaches_client_witness :
  server_handler example_token true "2023-11-14T22:13:20.000Z" example_send example_json_error
    (authed_post "/send" (squote "{'to':'15551234567','message':'hi'}"))
  = cors_headers ++ ReadBody
    :: SendMessage (JStr "15551234567@c.us") (CText (Some (JStr "hi")))
    :: json_reply 200 [("success", JBool true);
                       ("messageId", JStr "true_15551234567@c.us_3EB0ABCDEF");
                       ("timestamp", JNum 1700000000 0)]
  /\ server_handler example_token true "2023-11-14T22:13:20.000Z" example_send example_json_error
    (authed_post "/send"
       (squote "{'to':'15551234567','message':'here','type':'location','latitude':32.1,'longitude':35.2}"))
  = cors_headers ++ ReadBody
    :: SendMessage (JStr "15551234567@c.us")
         (CLocation (Some (JNum 321 (-1))) (Some (JNum 352 (-1))) None None)
    :: json_reply 200 [("success", JBool true);
                       ("messageId", JStr "true_15551234567@c.us_3EB0ABCDEF");
                       ("timestamp", JNum 1700000000 0)].
Proof.
  split.
  - apply (proj1 send_request_reaches_client example_token true "2023-11-14T22:13:20.000Z"
             example_send example_json_error "/send" (squote "{'to':'15551234567','message':'hi'}")
             (JObj [("to", JStr "15551234567"); ("message", JStr "hi")]) "15551234567").
    all: first [reflexivity | discriminate | (left; reflexivity)].
  - apply (proj2 send_request_reaches_client example_token true "2023-11-14T22:13:20.000Z"
             example_send example_json_error "/send"
             (squote "{'to':'15551234567','message':'here','type':'location','latitude':32.1,'longitude':35.2}")
             (JObj [("to", JStr "15551234567"); ("message", JStr "here");
                    ("type", JStr "location"); ("latitude", JNum 321 (-1));
                    ("longitude", JNum 352 (-1))])
             "15551234567").
    all: first [reflexivity | discriminate].
Defined.

(** X11: a [type] other than the string ["text"] or ["location"] (another
    string, a number, [null], ...) is answered 400 with
    [{error: "Unsupported message type"}] and nothing is sent, once [to]
    is a non-empty string and [message] is truthy. *)
Theorem unsupported_type_rejected : forall token ready now send jerr url body data s v,
  pathname url = Some (Some "/send"%string) ->
  JSON_parse body = Some data ->
  js_get data "to" = Some (JStr s) -> s <> ""%string ->
  truthy (js_get data "message") = true ->
  js_get data "type" = Some v -> v <> JStr "text" -> v <> JStr "location" ->
  server_handler token ready now send jerr
    (mkRequest "POST" url (Some ("Bearer " ++ token)%string) body)
  = cors_headers ++ ReadBody :: json_reply 400 [("error", JStr "Unsupported message type")].
Proof.
  intros token ready now send jerr url body data s v Hpath Hparse Hto Hs Hmsg Htype Ht Hl.
  rewrite server_handler_post_send by exact Hpath. f_equal. f_equal.
  unfold on_send_end. rewrite Hparse.
  destruct data as [| | | | |o]; cbn [js_get] in *; try discriminate.
  cbv beta iota zeta delta [js_get].
  rewrite Hto, Hmsg. cbv beta iota delta [phone_number]. cbn [truthy negb orb].
  rewrite (proj2 (String.eqb_neq _ _) Hs). cbn [negb orb].
  rewrite Htype.
  destruct v as [| | | t | |]; try reflexivity.
  destruct (String.eqb_spec t "text") as [->|_]; [congruence|].
  destruct (String.eqb_spec t "location") as [->|_]; [congruence|].
  reflexivity.
Qed.

Lemma unsupported_type_rejected_witness :
  server_handler example_token true "2023-11-14T22:13:20.000Z" example_send example_json_error
    (authed_post "/send" (squote "{'to':'15551234567','message':'hi','type':null}"))
  = cors_headers ++ ReadBody :: json_reply 400 [("error", JStr "Unsupported message type")].
Proof.
  apply (unsupported_type_rejected example_token true "2023-11-14T22:13:20.000Z"
           example_send example_json_error "/send" (squote "{'to':'15551234567','message':'hi','type':null}")
           (JObj [("to", JStr "15551234567"); ("message", JStr "hi"); ("type", JNull)])
           "15551234567" JNull).
  all: first [reflexivity | discriminate].
Defined.

(** X12: a truthy [to] that is neither a string nor an array (a number,
    [true], an object) makes [phoneNumber.includes] throw: the request is
    answered 500 with the message of the [TypeError] (V8's wording) and
    nothing is sent. *)
Theorem non_string_recipient_fails : forall token ready now send jerr url body data v,
  pathname url = Some (Some "/send"%string) ->
  JSON_parse body = Some data ->
  js_get data "to" = Some v -> truthy (Some v) = true ->
  (forall s, v <> JStr s) -> (forall xs, v <> JArr xs) ->
  truthy (js_get data "message") = true ->
  server_handler token ready now send jerr
    (mkRequest "POST" url (Some ("Bearer " ++ token)%string) body)
  = cors_headers ++ ReadBody :: fail_500 "phoneNumber.includes is not a function".
Proof.
  intros token ready now send jerr url body data v Hpath Hparse Hto Hv Hs Ha Hmsg.
  rewrite server_handler_post_send by exact Hpath. f_equal. f_equal.
  unfold on_send_end. rewrite Hparse.
  destruct data as [| | | | |o]; cbn [js_get] in *; try discriminate.
  cbv beta iota zeta delta [js_get].
  rewrite Hto, Hv, Hmsg. cbv beta iota delta [phone_number]. cbn [negb orb].
  destruct v as [|b|m e|s|xs|kvs]; try reflexivity.
  - discriminate Hv.
  - exfalso. exact (Hs s eq_refl).
  - exfalso. exact (Ha xs eq_refl).
Qed.

Lemma non_string_recipient_fails_witness :
  server_handler example_token true "2023-11-14T22:13:20.000Z" example_send example_json_error
    (authed_post "/send" (squote "{'to':15551234567,'message':'hi'}"))
  = cors_headers ++ ReadBody :: fail_500 "phoneNumber.includes is not a function".
Proof.
  apply (non_string_recipient_fails example_token true "2023-11-14T22:13:20.000Z"
           example_send example_json_error "/send" (squote "{'to':15551234567,'message':'hi'}")
           (JObj [("to", JNum 15551234567 0); ("message", JStr "hi")])
           (JNum 15551234567 0)).
  all: first [reflexivity | discriminate | (intros ? ?; discriminate)].
Defined.

(** ** Start-up: [initializeWhatsApp] *)

(** X13: [initializeWhatsApp] exits the process (with code 1) exactly when
    the first [client.initialize()] fails and either its error message
    does not contain ["already exists"] or the retry fails too; it calls
    [client.initialize()] a second time exactly when the first call fails
    with a message containing ["already exists"], and that second call
    comes after a 5000 ms timer. *)
Theorem initializeWhatsApp_outcome : forall init,
  (In (Exit 1) (initializeWhatsApp init)
   <-> exists m, init 1%nat = Some m
                 /\ (includes m "already exists" = false \/ exists m2, init 2%nat = Some m2))
  /\ init_calls (initializeWhatsApp init)
     = match init 1%nat with
       | Some m => if includes m "already exists" then 2%nat else 1%nat
       | None => 1%nat
       end
  /\ ((exists m, init 1%nat = Some m /\ includes m "already exists" = true) ->
      exists pre mid post,
        initializeWhatsApp init = pre ++ Initialize :: mid ++ Initialize :: post
        /\ In (SetTimeout 5000) mid).
Proof.
  intros init. unfold initializeWhatsApp.
  destruct (init 1%nat) as [m|] eqn:E1.
  - destruct (includes m "already exists") eqn:Ei.
    + destruct (init 2%nat) as [m2|] eqn:E2.
      * split; [|split; [reflexivity|]].
        -- split; [intros _; exists m; split; [reflexivity|right; exists m2; reflexivity]|].
           intros _. cbn. tauto.
        -- intros _. eexists [_; _; _], [_; _; _; _; _], _.
           split; [reflexivity|cbn; tauto].
      * split; [|split; [reflexivity|]].
        -- split; [cbn; intros H; repeat (destruct H as [H|H]; [discriminate H|]); contradiction|].
           intros [m' [Hm' [Hf|[m2 Hm2]]]]; injection Hm' as <-; congruence.
        -- intros _. eexists [_; _; _], [_; _; _; _; _], _.
           split; [reflexivity|cbn; tauto].
    + split; [|split; [reflexivity|]].
      * split; [intros _; exists m; auto|intros _; cbn; tauto].
      * intros [m' [Hm' Hi]]. injection Hm' as <-. congruence.
  - split; [|split; [reflexivity|]].
    + split; [cbn; intros H; repeat (destruct H as [H|H]; [discriminate H|]); contradiction|].
      intros [m [Hm _]]. discriminate.
    + intros [m [Hm _]]. discriminate.
Qed.

Lemma initializeWhatsApp_outcome_witness :
  (exists m, (fun n : nat => if Nat.eqb n 1 then Some "Protocol error: binding already exists"%string
                            else None) 1%nat = Some m
             /\ includes m "already exists" = true)
  /\ exists pre mid post,
       initializeWhatsApp (fun n => if Nat.eqb n 1 then Some "Protocol error: binding already exists"%string
                                  else None)
       = pre ++ Initialize :: mid ++ Initialize :: post
       /\ In (SetTimeout 5000) mid.
Proof.
  assert (H : exists m, (fun n : nat => if Nat.eqb n 1
                                        then Some "Protocol error: binding already exists"%string
                                        else None) 1%nat = Some m
                        /\ includes m "already exists" = true).
  { eexists. split; [reflexivity|vm_compute; reflexivity]. }
  split; [exact H|].
  exact (proj2 (proj2 (initializeWhatsApp_outcome _)) H).
Defined.

(** ** [testAPIConnection] *)

(** X14: [testAPIConnection] makes exactly one request and never waits,
    whatever the response: it posts the fixed test payload, with the
    current ISO time and [test: true], to [apiConfig.endpoint] with the
    forwarder's headers and timeout. *)
Theorem testAPIConnection_single_request : forall cfg now o,
  skeleton (testAPIConnection cfg now o) = [SFetch]
  /\ fetched_payloads (testAPIConnection cfg now o) = [testPayload now]
  /\ Forall (fetch_to (endpoint cfg) (request_headers cfg) (timeout cfg))
            (testAPIConnection cfg now o).
Proof.
  intros cfg now [st [t|m]|m]; cbn;
    (split; [reflexivity|split; [reflexivity|]]);
    repeat (constructor; cbn; auto).
Qed.

(** ** The forwarder of example.js against the one of part_000 *)

Lemma skeleton_io : forall tr, skeleton (io_effects tr) = skeleton tr.
Proof.
  induction tr as [|e tr IH]; [reflexivity|]. unfold io_effects in *.
  destruct e; cbn [filter is_io skeleton]; rewrite ?IH; reflexivity.
Qed.

Section ExampleForward.
Variables (cfg : api_config) (sender message : string)
          (ad : list (string * json)) (now : Z -> string) (fetch : Z -> outcome).

Lemma ex_io_debug_request_logs a :
  io_effects (ExampleJs.debug_request_logs cfg sender message ad now a) = [].
Proof. reflexivity. Qed.
Lemma ex_io_response_logs st : io_effects (ExampleJs.response_logs st) = [].
Proof. reflexivity. Qed.
Lemma ex_io_success_logs st : io_effects (ExampleJs.success_logs cfg st) = [].
Proof. unfold ExampleJs.success_logs. repeat logs_only; reflexivity. Qed.
Lemma ex_io_http_error_logs st t : io_effects (ExampleJs.http_error_logs cfg st t) = [].
Proof. unfold ExampleJs.http_error_logs. repeat logs_only; reflexivity. Qed.
Lemma ex_io_catch_logs a m : io_effects (ExampleJs.catch_logs cfg a m) = [].
Proof. unfold ExampleJs.catch_logs. repeat logs_only; reflexivity. Qed.
Lemma ex_io_wait : io_effects (ExampleJs.wait_before_retry cfg) = [Sleep (retryDelay cfg)].
Proof. reflexivity. Qed.

Lemma ex_attempts_io : forall f a,
  let t1 := ExampleJs.attempts cfg sender message ad now fetch f a in
  let t2 := attempts cfg sender message ad now
                     (fun k => ExampleJs.read_outcome (fetch k)) f a in
  snd t1 = snd t2 /\ io_effects (fst t1) = io_effects (fst t2).
Proof.
  induction f as [|f IH]; intros a t1 t2; subst t1 t2; [split; reflexivity|].
  cbn [ExampleJs.attempts attempts].
  destruct (a <=? retryAttempts cfg); [|split; reflexivity].
  destruct (IH (a + 1)) as [IHr IHio].
  destruct (ExampleJs.attempts cfg sender message ad now fetch f (a + 1)) as [rest1 r1].
  destruct (attempts cfg sender message ad now (fun k => ExampleJs.read_outcome (fetch k))
              f (a + 1)) as [rest2 r2].
  cbn [fst snd] in IHr, IHio. cbv beta.
  destruct (fetch a) as [st [t|m]|m]; cbn [ExampleJs.read_outcome];
    [destruct (response_ok st) eqn:Eok|destruct (response_ok st) eqn:Eok|];
    cbn [fst snd]; rewrite ?Eok; cbn [fst snd];
    try (destruct (a =? retryAttempts cfg));
    cbn [fst snd]; (split; [assumption || reflexivity|]);
    rewrite ?io_effects_app, ?ex_io_debug_request_logs, ?ex_io_response_logs,
      ?ex_io_success_logs, ?ex_io_http_error_logs, ?ex_io_catch_logs, ?ex_io_wait;
    io_simpl; cbn [io_effects filter is_io app]; rewrite ?IHio; reflexivity.
Qed.

End ExampleForward.

(** X15: the forwarder of example.js has the result, fetches and sleeps of
    the one of part_000 run on the same outcomes, except that a 2xx
    response whose body cannot be read counts as an error (it is retried,
    and [false] on the last attempt). *)
Theorem example_forward_as_part000 : forall cfg sender message ad now fetch,
  let ex := ExampleJs.forwardMessageToAPI cfg sender message ad now fetch in
  let p0 := forwardMessageToAPI cfg sender message ad now
              (fun k => ExampleJs.read_outcome (fetch k)) in
  snd ex = snd p0 /\ io_effects (fst ex) = io_effects (fst p0).
Proof.
  intros cfg sender message ad now fetch.
  exact (ex_attempts_io cfg sender message ad now fetch _ 1).
Qed.

(** X16: a 2xx response whose body cannot be read ends the part_000
    forwarder with [true] after that one request, while the example.js
    forwarder treats it as a failure: with at least two attempts
    configured it waits [retryDelay] and sends the request again. *)
Theorem example_forward_retries_unreadable_2xx :
  forall cfg sender message ad now fetch st m,
  fetch 1 = Response st (BodyError m) -> response_ok st = true ->
  2 <= retryAttempts cfg ->
  snd (forwardMessageToAPI cfg sender message ad now fetch) = true
  /\ skeleton (fst (forwardMessageToAPI cfg sender message ad now fetch)) = [SFetch]
  /\ exists rest,
       skeleton (fst (ExampleJs.forwardMessageToAPI cfg sender message ad now fetch))
       = SFetch :: SSleep (retryDelay cfg) :: SFetch :: rest.
Proof.
  intros cfg sender message ad now fetch st m Hf Hok HN.
  unfold forwardMessageToAPI, ExampleJs.forwardMessageToAPI.
  destruct (Z.to_nat (retryAttempts cfg)) as [|n] eqn:EN; [lia|].
  destruct (attempts_step_ok cfg sender message ad now fetch n 1 st (BodyError m))
    as [logs [Hs Heq]]; [lia|exact Hf|exact Hok|].
  rewrite Heq. split; [reflexivity|split; [exact Hs|]].
  set (fetch' := fun k => ExampleJs.read_outcome (fetch k)).
  destruct (ex_attempts_io cfg sender message ad now fetch (S n) 1) as [_ Hio].
  rewrite <- skeleton_io, Hio, skeleton_io. fold fetch'.
  assert (Hf' : failing (fetch' 1) = true).
  { unfold fetch'. rewrite Hf. cbn [ExampleJs.read_outcome]. rewrite Hok. reflexivity. }
  destruct (attempts_step_fail cfg sender message ad now fetch' n 1)
    as [logs' [Hs' Heq']]; [lia|exact Hf'|].
  rewrite Heq'.
  destruct (Z.eqb_spec 1 (retryAttempts cfg)) as [E1|_]; [lia|].
  destruct (attempts_shape cfg sender message ad now fetch' n 2) as [k [_ [Hk Hsk]]];
    [lia|lia|].
  destruct (attempts cfg sender message ad now fetch' n (1 + 1)) as [rest r] eqn:Er.
  replace (1 + 1) with 2 in Er by reflexivity. rewrite Er in Hsk. cbn [fst] in Hsk |- *.
  rewrite !skeleton_app, Hs', skeleton_wait, Hsk.
  destruct k as [|[|k]]; [lia| |]; cbn; eexists; reflexivity.
Qed.

Lemma example_forward_retries_unreadable_2xx_witness :
  snd (forwardMessageToAPI example_config "15551234567@c.us" "hello"
         (additional_json example_additional) example_now
         (fun k => if k =? 1 then Response 200 (BodyError "terminated") else Response 500 (BodyText "")))
  = true
  /\ skeleton (fst (forwardMessageToAPI example_config "15551234567@c.us" "hello"
         (additional_json example_additional) example_now
         (fun k => if k =? 1 then Response 200 (BodyError "terminated") else Response 500 (BodyText ""))))
  = [SFetch]
  /\ exists rest,
       skeleton (fst (ExampleJs.forwardMessageToAPI example_config "15551234567@c.us" "hello"
         (additional_json example_additional) example_now
         (fun k => if k =? 1 then Response 200 (BodyError "terminated") else Response 500 (BodyText ""))))
       = SFetch :: SSleep (retryDelay example_config) :: SFetch :: rest.
Proof.
  apply (example_forward_retries_unreadable_2xx example_config "15551234567@c.us" "hello"
           (additional_json example_additional) example_now
           (fun k => if k =? 1 then Response 200 (BodyError "terminated") else Response 500 (BodyText ""))
           200 "terminated").
  all: first [reflexivity | (vm_compute; discriminate)].
Defined.

(** ** The bot commands of example.js *)

Lemma str_length_app : forall p q : string,
  String.length (p ++ q) = (String.length p + String.length q)%nat.
Proof. induction p as [|c p IH]; intros q; cbn; [reflexivity|rewrite IH; reflexivity]. Qed.

Lemma str_app_assoc : forall p q r : string, (p ++ (q ++ r) = (p ++ q) ++ r)%string.
Proof. induction p as [|c p IH]; intros q r; cbn; [reflexivity|rewrite IH; reflexivity]. Qed.

Lemma substring_all : forall q : string, substring 0 (String.length q) q = q.
Proof. induction q as [|c q IH]; cbn; [reflexivity|rewrite IH; reflexivity]. Qed.

Lemma substring_app : forall p q : string,
  substring (String.length p) (String.length q) (p ++ q) = q.
Proof. induction p as [|c p IH]; intros q; cbn; [apply substring_all|apply IH]. Qed.

Lemma slice_app : forall p q : string,
  ExampleJs.slice (p ++ q) (Z.of_nat (String.length p)) = q.
Proof.
  intros p q. unfold ExampleJs.slice. rewrite str_length_app.
  replace (Z.of_nat (String.length p) <? 0) with false by (symmetry; apply Z.ltb_ge; lia).
  rewrite Z.min_l by lia.
  replace (Z.to_nat (Z.of_nat (String.length p + String.length q)
                     - Z.of_nat (String.length p))) with (String.length q) by lia.
  rewrite Nat2Z.id. apply substring_app.
Qed.

Lemma split_word : forall w rest,
  ~ is_substring " " w ->
  ExampleJs.split " " (w ++ String " " rest) = w :: ExampleJs.split " " rest.
Proof.
  induction w as [|c w IH]; intros rest Hw; cbn; [reflexivity|].
  destruct (Ascii.eqb_spec c " ") as [->|Hc].
  - exfalso. apply Hw. exists ""%string, w. reflexivity.
  - rewrite IH; [reflexivity|].
    intros [p [q Hpq]]. apply Hw. exists (String c p), q. rewrite Hpq. reflexivity.
Qed.

(** X17: [!sendto <number> <text>], for a number without spaces that starts
    with a digit, marks the chat seen and sends [" " ++ text] (the space
    after the number included) to the number with [@c.us] appended unless
    it already contains [@c.us] (a group id ending in [@g.us] gets it
    appended as well). *)
Theorem sendto_command : forall msg chat c n text,
  msg_body msg = ("!sendto " ++ String c n ++ " " ++ text)%string ->
  JsonParse.is_digit c = true -> ~ is_substring " " n ->
  ExampleJs.bot_commands msg chat
  = [ExampleJs.SendSeen;
     ExampleJs.SendText (if includes (String c n) "@c.us" then String c n
                         else (String c n ++ "@c.us")%string)
                        (" " ++ text)%string].
Proof.
  intros msg chat c n text Hb Hd Hn.
  assert (Hw : ~ is_substring " " (String c n)).
  { intros [p [q Hpq]]. destruct p as [|c0 p].
    - injection Hpq as Hc _. subst c. discriminate Hd.
    - injection Hpq as _ Hpq. apply Hn. exists p, q. exact Hpq. }
  assert (Hs : ExampleJs.split " " (msg_body msg)
               = "!sendto"%string :: String c n :: ExampleJs.split " " text).
  { rewrite Hb. change ("!sendto " ++ String c n ++ " " ++ text)%string
      with (String "!" (String "s" (String "e" (String "n" (String "d" (String "t"
             (String "o" (String " " (String c n ++ String " " text))))))))).
    rewrite <- split_word by exact Hw. reflexivity. }
  assert (Hi : ExampleJs.index_of (msg_body msg) (String c n) = 8).
  { rewrite Hb. unfold ExampleJs.index_of.
    assert (Hne : forall d, JsonParse.is_digit d = false -> c <> d)
      by (intros d Hd' ->; congruence).
    cbn [ExampleJs.index_of_from String.prefix append].
    repeat match goal with
    | |- context [ascii_dec c ?d] =>
        destruct (ascii_dec c d) as [E|_]; [exfalso; exact (Hne d eq_refl E)|]
    end.
    destruct (ascii_dec c c) as [_|E]; [|congruence].
    rewrite (proj2 (prefix_spec n _) (ex_intro _ _ eq_refl)). reflexivity. }
  assert (Hsl : ExampleJs.slice (msg_body msg) (8 + Z.of_nat (String.length (String c n)))
                = (" " ++ text)%string).
  { rewrite Hb, str_app_assoc.
    replace (8 + Z.of_nat (String.length (String c n)))
      with (Z.of_nat (String.length ("!sendto " ++ String c n))) by (rewrite str_length_app; cbn [String.length]; lia).
    apply slice_app. }
  assert (Hp1 : String.eqb (msg_body msg) "!ping reply" = false) by (rewrite Hb; reflexivity).
  assert (Hp2 : String.eqb (msg_body msg) "!ping" = false) by (rewrite Hb; reflexivity).
  assert (Hp3 : String.prefix "!sendto " (msg_body msg) = true) by (rewrite Hb; reflexivity).
  unfold ExampleJs.bot_commands. cbv zeta.
  rewrite Hp1, Hp2, Hp3, Hs. cbv beta iota zeta.
  rewrite Hi, Hsl. reflexivity.
Qed.

Lemma sendto_command_witness :
  ExampleJs.bot_commands
    (mkMessage "15551234567@c.us" "!sendto 972501234567 see you at 8"
               "false_15551234567@c.us_3EB0C767D26A1D5F" "chat" false 1700000000 false)
    example_chat
  = [ExampleJs.SendSeen;
     ExampleJs.SendText (if includes "972501234567" "@c.us" then "972501234567"
                         else ("972501234567" ++ "@c.us")%string)
                        (" " ++ "see you at 8")%string].
Proof.
  apply (sendto_command
           (mkMessage "15551234567@c.us" "!sendto 972501234567 see you at 8"
                      "false_15551234567@c.us_3EB0C767D26A1D5F" "chat" false 1700000000 false)
           example_chat "9" "72501234567" "see you at 8").
  - reflexivity.
  - reflexivity.
  - intros H. apply includes_spec in H. vm_compute in H. discriminate H.
Defined.

(** X18: the group commands [!subject ...], [!desc ...] and [!leave] sent
    in a chat that is not a group change nothing and get the single reply
    ["This command can only be used in a group!"]. *)
Theorem group_only_commands_in_private_chat : forall msg chat,
  chat_isGroup chat = false ->
  (exists r, msg_body msg = ("!subject " ++ r)%string)
  \/ (exists r, msg_body msg = ("!desc " ++ r)%string)
  \/ msg_body msg = "!leave"%string ->
  ExampleJs.bot_commands msg chat = [ExampleJs.Reply ExampleJs.group_only].
Proof.
  intros msg chat Hg Hb. unfold ExampleJs.bot_commands. cbv zeta. rewrite Hg.
  destruct Hb as [[r Hb]|[[r Hb]|Hb]]; rewrite Hb; try destruct r; reflexivity.
Qed.

Lemma group_only_commands_in_private_chat_witness :
  ExampleJs.bot_commands
    (mkMessage "15551234567@c.us" "!subject Team lunch"
               "false_15551234567@c.us_3EB0C767D26A1D60" "chat" false 1700000000 false)
    example_chat
  = [ExampleJs.Reply ExampleJs.group_only].
Proof.
  apply group_only_commands_in_private_chat.
  - reflexivity.
  - left. exists "Team lunch"%string. reflexivity.
Defined.
